(** * CuppaChat: the room connection manager of [src/app.py]

    A shallow embedding of [Client], [ConnectionManager] and the
    WebSocket session handler [ws_endpoint], with the properties of the
    specification stated over it, and of the [upload] handler with the
    frame the page makes of its answer.

    Modelling conventions.
    - A Python object that is compared by identity ([WebSocket], [Client])
      carries a natural number standing for its address.
    - [ConnectionManager.rooms] is a [gmap string (list Client.t)].
    - JSON payloads are values of [Json]; a decoded or literal [dict] is an
      association list in insertion order with unique keys.
    - A [str] is the string of its UTF-8 bytes, which keeps equality and
      concatenation as they are on code points; a surrogate code point,
      which [json.loads] lets a client put in a text, is held as the three
      bytes the [surrogatepass] handler gives it.
    - A path parameter, an exception text and the filename of an upload
      are decoded from bytes and hold no surrogate: only a line that
      shows a text taken from a JSON frame can fail to print.
    - Every [async] method is a computation in the monad [M]: state passing
      over [World], with Python exceptions as the [Raise] outcome.
    - The network and the clock are the environment [Env]: whether the
      n-th interaction, a [send_json], succeeds, and what [utcnow] reads.
    - The file system is a parameter of [upload]: what becomes of the
      write to a path, which can succeed, stop part-way or be refused.
    - A call of a manager method runs to its end before another session is
      scheduled: the interleaving of coroutines at [await] is not modelled. *)

From Stdlib Require Import ZArith String Ascii List Lia.
From Stdlib Require Import SpecFloat.
From stdpp Require Import gmap strings list.

Open Scope string_scope.
Open Scope list_scope.
Set Warnings "-register-all".

(** ** Python values *)

(** What [json.loads] produces and [send_json] serialises. *)
Inductive Json : Type :=
| JNull
| JBool (b : bool)
| JInt (z : Z)
| JFloat (f : spec_float)
| JStr (s : string)
| JList (l : list Json)
| JDict (d : list (string * Json)).

(** [bool(x)] for a decoded JSON value. *)
Definition truthy (x : Json) : bool :=
  match x with
  | JNull => false
  | JBool b => b
  | JInt z => negb (z =? 0)%Z
  | JFloat (S754_zero _) => false
  | JFloat _ => true
  | JStr s => negb (String.eqb s "")
  | JList l => match l with [] => false | _ => true end
  | JDict d => match d with [] => false | _ => true end
  end.

(** [x or y] *)
Definition py_or (x y : Json) : Json := if truthy x then x else y.

Fixpoint dict_lookup (k : string) (d : list (string * Json)) : option Json :=
  match d with
  | [] => None
  | (k', v) :: d' => if String.eqb k k' then Some v else dict_lookup k d'
  end.

(** [d.get(k)]: the value, or [None] when the key is absent. *)
Definition dict_get (k : string) (d : list (string * Json)) : Json :=
  match dict_lookup k d with
  | Some v => v
  | None => JNull
  end.

(** [x == s] for a string literal [s]: only a [str] equals a [str]. *)
Definition eq_str (x : Json) (s : string) : bool :=
  match x with
  | JStr t => String.eqb t s
  | _ => false
  end.

(** A [str] is held as its UTF-8 bytes. The three predicates recognise the
    encodings of the characters [str.isspace] accepts: one byte for
    U+0009..U+000D, U+001C..U+001F and U+0020; two for U+0085 and U+00A0;
    three for U+1680, U+2000..U+200A, U+2028, U+2029, U+202F, U+205F and
    U+3000. *)
Definition space1 (a : ascii) : bool :=
  let n := nat_of_ascii a in
  (((9 <=? n) && (n <=? 13)) || ((28 <=? n) && (n <=? 32)))%nat.

Definition space2 (a b : ascii) : bool :=
  let m := nat_of_ascii a in
  let n := nat_of_ascii b in
  ((m =? 194) && ((n =? 133) || (n =? 160)))%nat.

Definition space3 (a b c : ascii) : bool :=
  let l := nat_of_ascii a in
  let m := nat_of_ascii b in
  let n := nat_of_ascii c in
  (((l =? 225) && (m =? 154) && (n =? 128))
   || ((l =? 226) && (m =? 128)
       && (((128 <=? n) && (n <=? 138)) || (n =? 168) || (n =? 169)
           || (n =? 175)))
   || ((l =? 226) && (m =? 129) && (n =? 159))
   || ((l =? 227) && (m =? 128) && (n =? 128)))%nat.

(** [s.lstrip()] *)
Fixpoint lstrip (s : string) : string :=
  match s with
  | EmptyString => EmptyString
  | String a s1 =>
      if space1 a then lstrip s1
      else
        match s1 with
        | EmptyString => s
        | String b s2 =>
            if space2 a b then lstrip s2
            else
              match s2 with
              | EmptyString => s
              | String c s3 => if space3 a b c then lstrip s3 else s
              end
        end
  end.

(** [s] is empty or holds whitespace only. *)
Fixpoint blank (s : string) : bool :=
  match s with
  | EmptyString => true
  | String a s1 =>
      if space1 a then blank s1
      else
        match s1 with
        | EmptyString => false
        | String b s2 =>
            if space2 a b then blank s2
            else
              match s2 with
              | EmptyString => false
              | String c s3 => space3 a b c && blank s3
              end
        end
  end.

(** [s.rstrip()]: the text up to the whitespace that ends it. *)
Fixpoint rstrip (s : string) : string :=
  match s with
  | EmptyString => EmptyString
  | String a s1 => if blank s then EmptyString else String a (rstrip s1)
  end.

(** [s.strip()] *)
Definition strip (s : string) : string := rstrip (lstrip s).

(** Does [s] hold a surrogate, U+D800 to U+DFFF: the byte 0xED and then a
    byte from 0xA0 to 0xBF? Such a text cannot be encoded for the
    standard output. *)
Fixpoint has_surrogate (s : string) : bool :=
  match s with
  | EmptyString => false
  | String a r =>
      match r with
      | String b _ =>
          ((nat_of_ascii a =? 237) && (160 <=? nat_of_ascii b)
           && (nat_of_ascii b <=? 191))%nat
      | EmptyString => false
      end
      || has_surrogate r
  end.

(** ** Connections *)

(** The identity of a [WebSocket] object. *)
Definition WebSocket : Type := nat.

Module Client.
(** [class Client]: [id] is the identity of the object, which is what
    [c not in dead] compares, the class defining no [__eq__]. *)
Record t : Type := mk { id : nat; username : string; ws : WebSocket }.
End Client.

(** ** Exceptions, log lines, the world *)

Inductive Exn : Type :=
| WebSocketDisconnect
| JSONDecodeError
| AttributeError
| SendError
| UnicodeEncodeError
| OSError.

(** [isinstance(e, WebSocketDisconnect)] *)
Definition is_disconnect (e : Exn) : bool :=
  match e with WebSocketDisconnect => true | _ => false end.

(** One line written by [print]. *)
Inductive LogLine : Type :=
| LogJoin (username room : string) (total : nat)
| LogLeave (username room : string) (before after : nat)
| LogSendError (username : string) (e : Exn)
| LogCleanup (n : nat) (room : string)
| LogUserlist (room : string) (users : list string)
| LogChat (room username text : string)
| LogFile (room username : string) (filename : Json)
| LogWsError (room username : string) (e : Exn).

(** One call of [ws.send_json], with whether it returned or raised. *)
Record Send : Type := mkSend { to : WebSocket; payload : Json; ok : bool }.

Record World : Type := mkWorld {
  rooms : gmap string (list Client.t);   (* manager.rooms *)
  next_id : nat;                         (* next fresh object identity *)
  tick : nat;                            (* interactions with the environment so far *)
  accepted : list WebSocket;             (* handshakes accepted, oldest first *)
  wire : list Send;                      (* send_json calls, oldest first *)
  stdout : list LogLine                  (* printed lines, oldest first *)
}.

(** [ConnectionManager.__init__] in a fresh process. *)
Definition init : World :=
  {| rooms := ∅; next_id := 0; tick := 0; accepted := []; wire := []; stdout := [] |}.

Record Env : Type := mkEnv {
  send_ok : nat -> WebSocket -> Json -> bool;  (* does this send_json return? *)
  utcnow : nat -> string                       (* datetime.utcnow().isoformat() *)
}.

(** ** The monad of coroutines *)

Inductive Outcome (A : Type) : Type :=
| Return (a : A)
| Raise (e : Exn).
Arguments Return {A} a.
Arguments Raise {A} e.

Definition M (A : Type) : Type := World -> Outcome A * World.

Definition ret {A} (a : A) : M A := fun w => (Return a, w).

Definition bind {A B} (m : M A) (k : A -> M B) : M B :=
  fun w => match m w with
           | (Return a, w') => k a w'
           | (Raise e, w') => (Raise e, w')
           end.

Definition raise {A} (e : Exn) : M A := fun w => (Raise e, w).

(** [try: m  except Exception as e: h e] *)
Definition try_except {A} (m : M A) (h : Exn -> M A) : M A :=
  fun w => match m w with
           | (Return a, w') => (Return a, w')
           | (Raise e, w') => h e w'
           end.

Declare Scope coro_scope.
Delimit Scope coro_scope with coro.
Notation "x <- m ;; k" := (bind m (fun x => k))
  (at level 100, m at next level, right associativity) : coro_scope.
Notation "m ;; k" := (bind m (fun _ => k))
  (at level 100, right associativity) : coro_scope.
Open Scope coro_scope.

(** Can the line be encoded for the standard output? The [CHAT] line shows
    the text of the client and the [FILE] line its filename, as it is when
    it is a [str] and through [repr], which escapes a surrogate, when it
    is a list or an object. *)
Definition printable (l : LogLine) : bool :=
  match l with
  | LogChat _ _ text => negb (has_surrogate text)
  | LogFile _ _ (JStr s) => negb (has_surrogate s)
  | _ => true
  end.

(** [print(...)]: the line is written, or the encoder of the standard
    output raises. *)
Definition print (l : LogLine) : M unit :=
  fun w =>
    if printable l then
      (Return tt,
       {| rooms := rooms w; next_id := next_id w; tick := tick w;
          accepted := accepted w; wire := wire w;
          stdout := stdout w ++ [l] |})
    else (Raise UnicodeEncodeError, w).

Definition get_rooms : M (gmap string (list Client.t)) :=
  fun w => (Return (rooms w), w).

Definition set_rooms (r : gmap string (list Client.t)) : M unit :=
  fun w => (Return tt,
            {| rooms := r; next_id := next_id w; tick := tick w;
               accepted := accepted w; wire := wire w; stdout := stdout w |}).

(** [Client(username, ws)]: a new object. *)
Definition new_Client (username : string) (ws : WebSocket) : M Client.t :=
  fun w => (Return (Client.mk (next_id w) username ws),
            {| rooms := rooms w; next_id := S (next_id w); tick := tick w;
               accepted := accepted w; wire := wire w; stdout := stdout w |}).

(** [await ws.accept()] *)
Definition accept (ws : WebSocket) : M unit :=
  fun w => (Return tt,
            {| rooms := rooms w; next_id := next_id w; tick := tick w;
               accepted := accepted w ++ [ws]; wire := wire w;
               stdout := stdout w |}).

(** ** [class ConnectionManager] *)

Section Manager.
Context (env : Env).

(** [await ws.send_json(message)]: it returns, or it raises. *)
Definition send_json (ws : WebSocket) (message : Json) : M unit :=
  fun w =>
    let sent := send_ok env (tick w) ws message in
    (if sent then Return tt else Raise SendError,
     {| rooms := rooms w; next_id := next_id w; tick := S (tick w);
        accepted := accepted w;
        wire := wire w ++ [mkSend ws message sent];
        stdout := stdout w |}).

(** [datetime.utcnow().isoformat()] *)
Definition utcnow_isoformat : M string :=
  fun w =>
    (Return (utcnow env (tick w)),
     {| rooms := rooms w; next_id := next_id w; tick := S (tick w);
        accepted := accepted w; wire := wire w; stdout := stdout w |}).

(** [self.rooms.get(room, [])] *)
Definition _get_clients (room : string) : M (list Client.t) :=
  r <- get_rooms ;;
  ret (default [] (r !! room)).

Definition _get_usernames (room : string) : M (list string) :=
  clients <- _get_clients room ;;
  ret (map Client.username clients).

(** The [for c in clients] loop of [broadcast]; the result is [dead]. *)
Fixpoint broadcast_loop (message : Json) (clients dead : list Client.t)
  : M (list Client.t) :=
  match clients with
  | [] => ret dead
  | c :: rest =>
      dead' <- try_except
                 (send_json (Client.ws c) message ;; ret dead)
                 (fun e => print (LogSendError (Client.username c) e) ;;
                           ret (dead ++ [c])) ;;
      broadcast_loop message rest dead'
  end.

Definition broadcast (room : string) (message : Json) : M unit :=
  clients <- _get_clients room ;;
  dead <- broadcast_loop message clients [] ;;
  match dead with
  | [] => ret tt
  | _ :: _ =>
      r <- get_rooms ;;
      set_rooms
        (<[room := filter (fun c => Client.id c ∉ map Client.id dead) clients]> r) ;;
      print (LogCleanup (length dead) room)
  end.

Definition userlist_event (users : list string) : Json :=
  JDict [("type", JStr "userlist"); ("users", JList (map JStr users))].

Definition broadcast_userlist (room : string) : M unit :=
  users <- _get_usernames room ;;
  print (LogUserlist room users) ;;
  broadcast room (userlist_event users).

Definition system_event (message time : string) : Json :=
  JDict [("type", JStr "system"); ("message", JStr message); ("time", JStr time)].

(** Lines 35-36 of [connect]: [setdefault] and [append] on the list the
    mapping holds. The result is that list. *)
Definition join (room username : string) (ws : WebSocket)
  : M (list Client.t) :=
  r <- get_rooms ;;
  let clients := default [] (r !! room) in
  c <- new_Client username ws ;;
  let clients := clients ++ [c] in
  set_rooms (<[room := clients]> r) ;;
  ret clients.

Definition connect (room username : string) (ws : WebSocket) : M unit :=
  accept ws ;;
  clients <- join room username ws ;;
  print (LogJoin username room (length clients)) ;;
  broadcast_userlist room ;;
  time <- utcnow_isoformat ;;
  broadcast room (system_event (username +:+ " bergabung ke grup") time).

(** Lines 46-53 of [disconnect]; the result is [(before, after)]. *)
Definition leave (room : string) (ws : WebSocket) : M (nat * nat) :=
  r <- get_rooms ;;
  let clients := default [] (r !! room) in
  let before := length clients in
  let clients := filter (fun c => Client.ws c ≠ ws) clients in
  match clients with
  | _ :: _ => set_rooms (<[room := clients]> r)
  | [] => set_rooms (delete room r)
  end ;;
  ret (before, length clients).

Definition disconnect (room username : string) (ws : WebSocket) : M unit :=
  ba <- leave room ws ;;
  print (LogLeave username room (fst ba) (snd ba)) ;;
  time <- utcnow_isoformat ;;
  broadcast room (system_event (username +:+ " keluar dari grup") time) ;;
  broadcast_userlist room.

(** ** [ws_endpoint] *)

(** What one [await ws.receive_json()] meets. *)
Inductive Frame : Type :=
| Disconnected            (* the peer is gone: WebSocketDisconnect *)
| Undecodable             (* a frame that is not JSON text *)
| Decoded (data : Json).

Definition receive_json (f : Frame) : M Json :=
  match f with
  | Disconnected => raise WebSocketDisconnect
  | Undecodable => raise JSONDecodeError
  | Decoded data => ret data
  end.

(** [data.get(k)]; only a [dict] has the method. *)
Definition get (data : Json) (k : string) : M Json :=
  match data with
  | JDict d => ret (dict_get k d)
  | _ => raise AttributeError
  end.

(** [x.strip()]; only a [str] has the method. *)
Definition str_strip (x : Json) : M string :=
  match x with
  | JStr s => ret (strip s)
  | _ => raise AttributeError
  end.

Definition chat_event (username text time : string) : Json :=
  JDict [("type", JStr "chat"); ("username", JStr username);
         ("message", JStr text); ("time", JStr time)].

Definition file_event (username : string) (url filename mimetype : Json)
    (time : string) : Json :=
  JDict [("type", JStr "file"); ("username", JStr username);
         ("url", url); ("filename", filename); ("mimetype", mimetype);
         ("time", JStr time)].

(** One turn of the [while True] loop, lines 92-114. *)
Definition turn (room username : string) (f : Frame) : M unit :=
  data <- receive_json f ;;
  msg_type <- get data "type" ;;
  if eq_str msg_type "chat" then
    message <- get data "message" ;;
    text <- str_strip (py_or message (JStr "")) ;;
    if String.eqb text "" then ret tt
    else
      print (LogChat room username text) ;;
      time <- utcnow_isoformat ;;
      broadcast room (chat_event username text time)
  else if eq_str msg_type "file" then
    filename <- get data "filename" ;;
    print (LogFile room username filename) ;;
    url <- get data "url" ;;
    filename <- get data "filename" ;;
    mimetype <- get data "mimetype" ;;
    time <- utcnow_isoformat ;;
    broadcast room (file_event username url filename mimetype time)
  else ret tt.

(** States of a session. [ACTIVE] is a session suspended in
    [receive_json] with nothing more to read yet. *)
Inductive State : Type := CONNECTING | ACTIVE | TERMINATED.

Fixpoint read_loop (room username : string) (inbound : list Frame)
  : M State :=
  match inbound with
  | [] => ret ACTIVE
  | f :: rest => turn room username f ;; read_loop room username rest
  end.

(** The [try] statement of [ws_endpoint], lines 90-119. *)
Definition session (room username : string) (ws : WebSocket)
    (inbound : list Frame) : M State :=
  try_except (read_loop room username inbound)
    (fun e =>
       if is_disconnect e then
         disconnect room username ws ;; ret TERMINATED
       else
         print (LogWsError room username e) ;;
         disconnect room username ws ;; ret TERMINATED).

Definition ws_endpoint (ws : WebSocket) (room username : string)
    (inbound : list Frame) : M State :=
  connect room username ws ;;
  session room username ws inbound.

End Manager.

(** * Vocabulary of the properties *)

(** The member list of a room, as [_get_clients] reads it. *)
Definition members (room : string) (w : World) : list Client.t :=
  default [] (rooms w !! room).

(** The invariant of the specification: no room is kept with no member. *)
Definition no_empty_room (w : World) : Prop :=
  forall room cs, rooms w !! room = Some cs -> cs <> [].

(** A network on which no [send_json] raises. *)
Definition reliable (env : Env) : Prop :=
  forall t ws message, send_ok env t ws message = true.

(** A [send_json] that returned. *)
Definition delivery (message : Json) (c : Client.t) : Send :=
  mkSend (Client.ws c) message true.

Definition recipient (s : Send) : WebSocket * Json := (to s, payload s).

(** [j.get(k)] on an outbound event. *)
Definition field (k : string) (j : Json) : Json :=
  match j with
  | JDict d => dict_get k d
  | _ => JNull
  end.

Definition is_userlist (s : Send) : bool :=
  match payload s with
  | JDict d => eq_str (dict_get "type" d) "userlist"
  | _ => false
  end.

(** A world after [n] more interactions that left the mapping alone. *)
Definition after (n : nat) (sends : list Send) (lines : list LogLine)
    (w : World) : World :=
  {| rooms := rooms w; next_id := next_id w; tick := tick w + n;
     accepted := accepted w; wire := wire w ++ sends;
     stdout := stdout w ++ lines |}.

Definition send_errors (dead : list Client.t) : list LogLine :=
  map (fun c => LogSendError (Client.username c) SendError) dead.

(** The mapping after the clean-up at the end of [broadcast]. *)
Definition evict (room : string) (clients dead : list Client.t)
    (r : gmap string (list Client.t)) : gmap string (list Client.t) :=
  match dead with
  | [] => r
  | _ :: _ =>
      <[room := filter (fun c => Client.id c ∉ map Client.id dead) clients]> r
  end.

Definition cleanup_line (room : string) (dead : list Client.t)
  : list LogLine :=
  match dead with
  | [] => []
  | _ :: _ => [LogCleanup (length dead) room]
  end.

Section Effects.
Context (env : Env).

(** The [send_json] calls of one [broadcast] that starts at tick [t]. *)
Fixpoint attempts (t : nat) (message : Json) (clients : list Client.t)
  : list Send :=
  match clients with
  | [] => []
  | c :: rest =>
      mkSend (Client.ws c) message (send_ok env t (Client.ws c) message)
      :: attempts (S t) message rest
  end.

(** The members whose send raises in that [broadcast]. *)
Fixpoint failed (t : nat) (message : Json) (clients : list Client.t)
  : list Client.t :=
  match clients with
  | [] => []
  | c :: rest =>
      if send_ok env t (Client.ws c) message
      then failed (S t) message rest
      else c :: failed (S t) message rest
  end.

(** The members whose send returns. *)
Fixpoint succeeded (t : nat) (message : Json) (clients : list Client.t)
  : list Client.t :=
  match clients with
  | [] => []
  | c :: rest =>
      if send_ok env t (Client.ws c) message
      then c :: succeeded (S t) message rest
      else succeeded (S t) message rest
  end.

(** The world one call of [broadcast] leaves. *)
Definition broadcast_world (room : string) (message : Json) (w : World)
  : World :=
  let clients := members room w in
  let dead := failed (tick w) message clients in
  {| rooms := evict room clients dead (rooms w);
     next_id := next_id w;
     tick := tick w + length clients;
     accepted := accepted w;
     wire := wire w ++ attempts (tick w) message clients;
     stdout := stdout w ++ send_errors dead ++ cleanup_line room dead |}.

End Effects.

(** ** Sequences of joins and leaves *)

Inductive Op : Type :=
| Join (room username : string) (ws : WebSocket)
| Leave (room username : string) (ws : WebSocket).

Definition op_room (o : Op) : string :=
  match o with Join room _ _ | Leave room _ _ => room end.

Definition perform (env : Env) (o : Op) : M unit :=
  match o with
  | Join room username ws => connect env room username ws
  | Leave room username ws => disconnect env room username ws
  end.

Fixpoint run (env : Env) (ops : list Op) (w : World) : World :=
  match ops with
  | [] => w
  | o :: rest => run env rest (snd (perform env o w))
  end.

(** The roster in the words of the specification: the connections that
    joined the room, in join order, without those that left. *)
Definition joined_step (room : string) (m : list (string * WebSocket))
    (o : Op) : list (string * WebSocket) :=
  match o with
  | Join r username ws => if decide (r = room) then m ++ [(username, ws)] else m
  | Leave r _ ws => if decide (r = room) then filter (fun p => p.2 ≠ ws) m else m
  end.

Definition joined (ops : list Op) (room : string) : list (string * WebSocket) :=
  fold_left (joined_step room) ops [].

Definition roster (ops : list Op) (room : string) : list string :=
  map fst (joined ops room).

Definition view (c : Client.t) : string * WebSocket :=
  (Client.username c, Client.ws c).

(** ** Reachable worlds *)

(** What the server does for its sessions: it accepts a connection, or one
    session reads one frame. *)
Inductive Action : Type :=
| Connect (room username : string) (ws : WebSocket)
| Receive (room username : string) (ws : WebSocket) (f : Frame).

Definition act (env : Env) (a : Action) : M unit :=
  match a with
  | Connect room username ws => connect env room username ws
  | Receive room username ws f => session env room username ws [f] ;; ret tt
  end.

Fixpoint play (env : Env) (actions : list Action) (w : World) : World :=
  match actions with
  | [] => w
  | a :: rest => play env rest (snd (act env a w))
  end.

Inductive reachable (env : Env) : World -> Prop :=
| reachable_init : reachable env init
| reachable_act a w : reachable env w -> reachable env (snd (act env a w)).

(** Members are distinct objects, all allocated already. *)
Definition fresh_ids (w : World) : Prop :=
  (forall room c, c ∈ members room w -> Client.id c < next_id w)
  /\ (forall room, NoDup (map Client.id (members room w))).

(** [w'] has no member that [w] lacks. *)
Definition shrinks (w w' : World) : Prop :=
  next_id w <= next_id w'
  /\ (forall room, members room w' `sublist_of` members room w).

Definition shrinking {A} (m : M A) : Prop := forall w, shrinks w (snd (m w)).

(** [m] keeps the property [P] of worlds, whether it returns or raises. *)
Definition preserves (P : World -> Prop) {A} (m : M A) : Prop :=
  forall w, P w -> P (snd (m w)).

(** ** Scenarios *)

Definition clock (t : nat) : string := "2024-05-01T12:00:00".

(** Every send succeeds. *)
Definition env_up : Env := mkEnv (fun _ _ _ => true) clock.

(** Sends succeed before tick [n] and fail from then on. *)
Definition env_until (n : nat) : Env :=
  mkEnv (fun t _ _ => (t <? n)%nat) clock.

Definition alice : Client.t := Client.mk 0 "alice" 1.
Definition bob : Client.t := Client.mk 1 "bob" 2.
Definition alice' : Client.t := Client.mk 1 "alice" 2.

Definition demo_alice (env : Env) : World :=
  play env [Connect "demo" "alice" 1] init.

Definition demo_alice_bob (env : Env) : World :=
  play env [Connect "demo" "alice" 1; Connect "demo" "bob" 2] init.

Definition demo_bob (env : Env) : World :=
  play env [Connect "demo" "alice" 1; Connect "demo" "bob" 2;
            Receive "demo" "alice" 1 Disconnected] init.

Definition demo_namesakes (env : Env) : World :=
  play env [Connect "demo" "alice" 1; Connect "demo" "alice" 2] init.

Definition two_joins : list Op :=
  [Join "demo" "alice" 1; Join "demo" "bob" 2].

Definition hi : Json := chat_event "alice" "hi" (clock 0).

Definition garbled_type : list (string * Json) :=
  [("type", JStr "typing"); ("message", JStr "...")].

Definition blank_chat : list (string * Json) :=
  [("type", JStr "chat"); ("message", JStr "   ")].

Definition photo : list (string * Json) :=
  [("type", JStr "file"); ("url", JStr "/uploads/ab12.png");
   ("filename", JStr "cat.png"); ("mimetype", JStr "image/png")].

Definition photo_event : Json :=
  file_event "bob" (JStr "/uploads/ab12.png") (JStr "cat.png")
    (JStr "image/png") (clock 0).

Definition bare_file : list (string * Json) := [("type", JStr "file")].

Definition bare_event : Json := file_event "bob" JNull JNull JNull (clock 0).

(** ** Vocabulary of the further properties *)

(** A frame on which the turn raises: the peer is gone, the frame is not
    JSON or not an object, the message of a chat is neither a string nor
    falsy, or the line that logs the chat or the file cannot be printed. *)
Definition bad (f : Frame) : bool :=
  match f with
  | Disconnected => true
  | Undecodable => true
  | Decoded (JDict d) =>
      if eq_str (dict_get "type" d) "chat" then
        match py_or (dict_get "message" d) (JStr "") with
        | JStr s => negb (String.eqb (strip s) "") && has_surrogate (strip s)
        | _ => true
        end
      else if eq_str (dict_get "type" d) "file" then
        match dict_get "filename" d with
        | JStr s => has_surrogate s
        | _ => false
        end
      else false
  | Decoded _ => true
  end.

Definition action_room (a : Action) : string :=
  match a with Connect room _ _ | Receive room _ _ _ => room end.

(** [m] never raises. *)
Definition returns {A} (m : M A) : Prop :=
  forall w, exists a, fst (m w) = Return a.

(** The sends since [w0] went to other connections than [ws], and [ws]
    is out of the room. *)
Definition away (room : string) (ws : WebSocket) (w0 w : World) : Prop :=
  (exists sends, wire w = wire w0 ++ sends
                 /\ forall s, s ∈ sends -> to s ≠ ws)
  /\ (forall c, c ∈ members room w -> Client.ws c ≠ ws).

(** ** [os.path] on POSIX, as far as [upload] uses it *)

Module os_path.

(** [c in p] for a one-character [c]. *)
Fixpoint contains (c : ascii) (p : string) : bool :=
  match p with
  | EmptyString => false
  | String a r => Ascii.eqb a c || contains c r
  end.

(** [p.rfind(c)]: the index of the last [c] in [p], or -1. *)
Fixpoint rfind (c : ascii) (p : string) : Z :=
  match p with
  | EmptyString => (-1)%Z
  | String a r =>
      let i := rfind c r in
      if (0 <=? i)%Z then (i + 1)%Z
      else if Ascii.eqb a c then 0%Z else (-1)%Z
  end.

(** [p[:n]] *)
Fixpoint upto (n : nat) (p : string) : string :=
  match n, p with
  | S n', String a r => String a (upto n' r)
  | _, _ => EmptyString
  end.

(** [p[n:]] *)
Fixpoint from (n : nat) (p : string) : string :=
  match n, p with
  | S n', String a r => from n' r
  | _, _ => p
  end.

(** The [while] loop of [genericpath._splitext], with [n] turns left:
    is there a character other than a dot from [filenameIndex] on? *)
Fixpoint names_a_file (p : string) (filenameIndex n : nat) : bool :=
  match n with
  | O => false
  | S n' =>
      match String.get filenameIndex p with
      | Some a =>
          if negb (Ascii.eqb a ".") then true
          else names_a_file p (S filenameIndex) n'
      | None => true
      end
  end.

(** [os.path.splitext(p)] *)
Definition splitext (p : string) : string * string :=
  let sepIndex := rfind "/" p in
  let dotIndex := rfind "." p in
  if (dotIndex >? sepIndex)%Z
     && names_a_file p (Z.to_nat (sepIndex + 1))
          (Z.to_nat dotIndex - Z.to_nat (sepIndex + 1))
  then (upto (Z.to_nat dotIndex) p, from (Z.to_nat dotIndex) p)
  else (p, EmptyString).

(** [b.startswith("/")] *)
Definition startswith_sep (b : string) : bool :=
  match b with
  | String a _ => Ascii.eqb a "/"
  | EmptyString => false
  end.

(** [a.endswith("/")] *)
Definition endswith_sep (a : string) : bool :=
  match a with
  | EmptyString => false
  | String _ _ => String.eqb (from (String.length a - 1) a) "/"
  end.

(** [os.path.join(a, b)] *)
Definition join (a b : string) : string :=
  if startswith_sep b then b
  else if String.eqb a "" || endswith_sep a then a +:+ b
  else a +:+ "/" +:+ b.

End os_path.

(** ** [upload] *)

Definition UPLOAD_DIR : string := "uploads".

Module UploadFile.
(** What the handler reads of its [UploadFile]: the filename and the
    content type the client declared, and the bytes of the body. *)
Record t : Type :=
  mk { filename : string; content_type : option string; file : string }.
End UploadFile.

(** The files under the working directory, and the lines printed. *)
Record Host : Type := mkHost {
  disk : gmap string string;
  console : list string
}.

(** [str(x)] for an optional string. *)
Definition str_of (x : option string) : string :=
  match x with Some s => s | None => "None" end.

Definition json_of (x : option string) : Json :=
  match x with Some s => JStr s | None => JNull end.

(** What becomes of one [with open(dst, "wb")] block: the body is copied
    to its end; or the copy raises with [n] bytes written; or [open]
    itself raises (a name too long for the file system, a directory that
    was removed, a disk with no room left) and no file is made. *)
Inductive Written : Type :=
| Whole
| Part (n : nat) (e : Exn)
| Refused (e : Exn).

(** [upload], with [uuid4_hex] for what [uuid.uuid4().hex] returns and
    [write dst body] for what the file system makes of the write. An
    exception leaves the handler: nothing is printed or answered. *)
Definition upload (write : string -> string -> Written) (uuid4_hex : string)
    (file : UploadFile.t) (h : Host) : Outcome Json * Host :=
  let ext := snd (os_path.splitext (UploadFile.filename file)) in
  let unique := uuid4_hex +:+ ext in
  let dst := os_path.join UPLOAD_DIR unique in
  match write dst (UploadFile.file file) with
  | Refused e => (Raise e, h)
  | Part n e =>
      (Raise e,
       mkHost (<[dst := os_path.upto n (UploadFile.file file)]> (disk h))
         (console h))
  | Whole =>
      let h := mkHost (<[dst := UploadFile.file file]> (disk h)) (console h) in
      let h := mkHost (disk h)
                 (console h ++ ["[UPLOAD] " +:+ UploadFile.filename file
                                +:+ " -> " +:+ unique +:+ " ("
                                +:+ str_of (UploadFile.content_type file)
                                +:+ ")"]) in
      (Return (JDict [("filename", JStr (UploadFile.filename file));
                      ("url", JStr ("/uploads/" +:+ unique));
                      ("mimetype", json_of (UploadFile.content_type file))]),
       h)
  end.

(** A lowercase hexadecimal digit. *)
Definition hexdigit (a : ascii) : bool :=
  let n := nat_of_ascii a in
  (((48 <=? n) && (n <=? 57)) || ((97 <=? n) && (n <=? 102)))%nat.

Fixpoint hexdigits (s : string) : bool :=
  match s with
  | EmptyString => true
  | String a r => hexdigit a && hexdigits r
  end.

(** What [uuid.uuid4().hex] can be: 32 hexadecimal digits. *)
Definition uuid_hex (s : string) : bool :=
  (String.length s =? 32)%nat && hexdigits s.

(** The extensions [splitext] gives: none, or a dot and then neither a dot
    nor a slash. *)
Definition extension (e : string) : bool :=
  match e with
  | EmptyString => true
  | String a r =>
      Ascii.eqb a "." && negb (os_path.contains "." r)
      && negb (os_path.contains "/" r)
  end.

(** What the page does with the answer of [upload], in
    [fileInput.onchange]: the frame [JSON.stringify] makes of
    [{type:'file', url:data.url, filename:data.filename,
    mimetype:data.mimetype}], a property that is [undefined] being left
    out. *)
Definition js_property (k : string) (data : list (string * Json))
  : list (string * Json) :=
  match dict_lookup k data with
  | Some v => [(k, v)]
  | None => []
  end.

Definition file_frame (data : list (string * Json)) : Frame :=
  Decoded (JDict (("type", JStr "file")
                  :: js_property "url" data
                  ++ js_property "filename" data
                  ++ js_property "mimetype" data)).

(** ** More scenarios *)

Definition demo_and_lobby : World :=
  play env_up [Connect "demo" "alice" 1; Connect "lobby" "carol" 3] init.

Definition hello : list (string * Json) :=
  [("type", JStr "chat"); ("message", JStr "  hi  ")].

Definition no_message : list (string * Json) := [("type", JStr "chat")].

Definition some_frames : list Frame :=
  [Decoded (JDict hello); Undecodable; Decoded (JDict photo)].

Definition a_uuid : string := "0123456789abcdef0123456789abcdef".
Definition another_uuid : string := "fedcba9876543210fedcba9876543210".

Definition script : UploadFile.t :=
  UploadFile.mk "../../etc/cron.d/job.sh" (Some "text/x-sh") "#!/bin/sh".

Definition picture : UploadFile.t :=
  UploadFile.mk "cat.png" (Some "image/png") "PNG".

Definition empty_host : Host := mkHost ∅ [].

(** A file system that takes a name of up to 255 bytes in the uploads
    directory, and every body. *)
Definition name_max (dst body : string) : Written :=
  if (255 <? String.length dst - 8)%nat then Refused OSError else Whole.

Fixpoint many (n : nat) (a : ascii) : string :=
  match n with
  | O => EmptyString
  | S n' => String a (many n' a)
  end.

Definition long_name : UploadFile.t :=
  UploadFile.mk ("x." +:+ many 250 "a") (Some "text/plain") "body".

(** The text of the one code point U+D800. *)
Definition lone_surrogate : string :=
  String (ascii_of_nat 237) (String (ascii_of_nat 160)
    (String (ascii_of_nat 128) EmptyString)).

Definition surrogate_file : list (string * Json) :=
  [("type", JStr "file"); ("filename", JStr lone_surrogate)].

Definition surrogate_chat : list (string * Json) :=
  [("type", JStr "chat"); ("message", JStr lone_surrogate)].

Definition surrogate_photo : list (string * Json) :=
  [("type", JStr "file"); ("url", JStr "/uploads/ab12.png");
   ("filename", JStr lone_surrogate); ("mimetype", JStr "image/png")].

(** Every send succeeds but the one at tick [n]. *)
Definition env_but (n : nat) : Env :=
  mkEnv (fun t _ _ => negb (t =? n)%nat) clock.

(** * Closed forms of the manager's methods *)

Section ClosedForms.
Context (env : Env).

Lemma broadcast_loop_run message clients :
  forall dead w,
    broadcast_loop env message clients dead w =
    (Return (dead ++ failed env (tick w) message clients),
     after (length clients) (attempts env (tick w) message clients)
       (send_errors (failed env (tick w) message clients)) w).
Proof.
  induction clients as [|c rest IH]; intros dead w.
  - destruct w. cbn. unfold ret, after. cbn.
    rewrite !app_nil_r, Nat.add_0_r. reflexivity.
  - cbn [broadcast_loop attempts failed length].
    unfold bind at 1. unfold try_except, bind, send_json, print, ret. cbn [printable].
    destruct (send_ok env (tick w) (Client.ws c) message) eqn:E.
    + rewrite IH. cbn. unfold after. cbn. f_equal. f_equal.
      * lia.
      * rewrite <- app_assoc. reflexivity.
    + rewrite IH. cbn. unfold after. cbn. f_equal.
      * rewrite <- app_assoc. reflexivity.
      * f_equal; try lia; rewrite <- app_assoc; reflexivity.
Qed.
Lemma broadcast_run room message w :
  broadcast env room message w = (Return tt, broadcast_world env room message w).
Proof.
  unfold broadcast, _get_clients, get_rooms.
  unfold bind at 1. unfold bind at 1. unfold ret at 1.
  unfold bind at 1. rewrite broadcast_loop_run. cbn [app].
  unfold broadcast_world, members.
  destruct (failed env (tick w) message (default [] (rooms w !! room))) as [|d ds] eqn:E.
  - unfold ret, after. cbn. rewrite !app_nil_r. reflexivity.
  - unfold bind, get_rooms, set_rooms, print, after. cbn [printable]. cbn.
    rewrite <- app_assoc. reflexivity.
Qed.

Lemma failed_reliable t message clients :
  reliable env -> failed env t message clients = [].
Proof.
  intros H. revert t. induction clients as [|c rest IH]; intros t; cbn.
  - reflexivity.
  - rewrite H. apply IH.
Qed.

Lemma attempts_reliable t message clients :
  reliable env -> attempts env t message clients = map (delivery message) clients.
Proof.
  intros H. revert t. induction clients as [|c rest IH]; intros t; cbn.
  - reflexivity.
  - rewrite H, IH. reflexivity.
Qed.

Lemma broadcast_reliable room message w :
  reliable env ->
  broadcast env room message w =
  (Return tt,
   after (length (members room w)) (map (delivery message) (members room w)) [] w).
Proof.
  intros H. rewrite broadcast_run. unfold broadcast_world, after.
  rewrite failed_reliable, attempts_reliable by assumption. reflexivity.
Qed.
Lemma members_insert room cs r n t a wi so :
  members room (mkWorld (<[room := cs]> r) n t a wi so) = cs.
Proof. unfold members. cbn. rewrite lookup_insert_eq. reflexivity. Qed.

Lemma members_delete room r n t a wi so :
  members room (mkWorld (delete room r) n t a wi so) = [].
Proof. unfold members. cbn. rewrite lookup_delete_eq. reflexivity. Qed.

Lemma connect_reliable room username ws w :
  reliable env ->
  let cs := members room w ++ [Client.mk (next_id w) username ws] in
  connect env room username ws w =
  (Return tt,
   {| rooms := <[room := cs]> (rooms w);
      next_id := S (next_id w);
      tick := tick w + length cs + 1 + length cs;
      accepted := accepted w ++ [ws];
      wire := wire w
              ++ map (delivery (userlist_event (map Client.username cs))) cs
              ++ map (delivery (system_event (username +:+ " bergabung ke grup")
                                  (utcnow env (tick w + length cs)))) cs;
      stdout := stdout w ++ [LogJoin username room (length cs);
                             LogUserlist room (map Client.username cs)] |}).
Proof.
  intros H cs. Opaque broadcast.
  unfold connect, join, broadcast_userlist, _get_usernames, _get_clients.
  unfold bind, accept, get_rooms, new_Client, set_rooms, print, ret,
    utcnow_isoformat. cbn [printable]. cbn.
  fold (members room w). fold cs.
  rewrite broadcast_reliable by assumption.
  rewrite members_insert. unfold after. cbn.
  rewrite broadcast_reliable by assumption.
  rewrite members_insert. unfold after. cbn.
  rewrite !app_nil_r, <- !app_assoc. cbn.
  rewrite !lookup_insert_eq. cbn. repeat f_equal. lia.
  Transparent broadcast.
Qed.

Lemma disconnect_reliable room username ws w :
  reliable env ->
  let cs := filter (fun c => Client.ws c ≠ ws) (members room w) in
  disconnect env room username ws w =
  (Return tt,
   {| rooms := match cs with
               | [] => delete room (rooms w)
               | _ :: _ => <[room := cs]> (rooms w)
               end;
      next_id := next_id w;
      tick := tick w + 1 + length cs + length cs;
      accepted := accepted w;
      wire := wire w
              ++ map (delivery (system_event (username +:+ " keluar dari grup")
                                  (utcnow env (tick w)))) cs
              ++ map (delivery (userlist_event (map Client.username cs))) cs;
      stdout := stdout w ++ [LogLeave username room (length (members room w))
                               (length cs);
                             LogUserlist room (map Client.username cs)] |}).
Proof.
  intros H cs. Opaque broadcast.
  unfold disconnect, leave, broadcast_userlist, _get_usernames, _get_clients.
  unfold bind at 1. unfold bind at 1. unfold get_rooms at 1.
  fold (members room w). fold cs.
  assert (Hm : forall n t a wi so,
             members room
               (mkWorld (match cs with
                         | [] => delete room (rooms w)
                         | _ :: _ => <[room := cs]> (rooms w)
                         end) n t a wi so) = cs).
  { intros. destruct cs; [apply members_delete | apply members_insert]. }
  assert (Hs : (match cs with
                | _ :: _ => set_rooms (<[room := cs]> (rooms w))
                | [] => set_rooms (delete room (rooms w))
                end) w =
               (Return tt,
                mkWorld (match cs with
                         | [] => delete room (rooms w)
                         | _ :: _ => <[room := cs]> (rooms w)
                         end) (next_id w) (tick w) (accepted w) (wire w) (stdout w))).
  { destruct cs; reflexivity. }
  unfold bind at 1. rewrite Hs.
  unfold bind, get_rooms, print, ret, utcnow_isoformat. cbn [printable]. cbn.
  rewrite broadcast_reliable by assumption.
  rewrite Hm. unfold after. cbn.
  assert (Hd : default [] (match cs with
                           | [] => delete room (rooms w)
                           | _ :: _ => <[room := cs]> (rooms w)
                           end !! room) = cs).
  { destruct cs; [rewrite lookup_delete_eq | rewrite lookup_insert_eq];
      reflexivity. }
  rewrite !Hd.
  rewrite broadcast_reliable by assumption.
  rewrite Hm. unfold after. cbn.
  rewrite !app_nil_r, <- !app_assoc. cbn.
  repeat f_equal; lia.
  Transparent broadcast.
Qed.
End ClosedForms.

(** * The roster after joins and leaves *)

Section Roster.
Context (env : Env) (Hrel : reliable env).

Lemma view_filter ws (l : list Client.t) :
  map view (filter (fun c => Client.ws c ≠ ws) l) =
  filter (fun p : string * WebSocket => p.2 ≠ ws) (map view l).
Proof.
  induction l as [|c l IH]; [reflexivity|].
  cbn [map]. rewrite !filter_cons. cbn.
  destruct (decide (Client.ws c ≠ ws)); cbn; rewrite IH; reflexivity.
Qed.

Lemma perform_members o room w :
  map view (members room (snd (perform env o w))) =
  joined_step room (map view (members room w)) o.
Proof.
  destruct o as [r u s | r u s]; cbn [perform joined_step].
  - rewrite connect_reliable by assumption. cbn [snd].
    unfold members at 1. cbn [rooms].
    destruct (decide (r = room)) as [->|Hne].
    + rewrite lookup_insert_eq. cbn. rewrite map_app. reflexivity.
    + rewrite lookup_insert_ne by assumption. reflexivity.
  - rewrite disconnect_reliable by assumption. cbn [snd].
    unfold members at 1. cbn [rooms].
    destruct (decide (r = room)) as [->|Hne].
    + rewrite <- view_filter.
      destruct (filter _ (members room w)) as [|c cs] eqn:E.
      * rewrite lookup_delete_eq. reflexivity.
      * rewrite lookup_insert_eq. reflexivity.
    + destruct (filter _ (members r w)).
      * rewrite lookup_delete_ne by assumption. reflexivity.
      * rewrite lookup_insert_ne by assumption. reflexivity.
Qed.

Lemma run_members ops room :
  forall w,
    map view (members room (run env ops w)) =
    fold_left (joined_step room) ops (map view (members room w)).
Proof.
  induction ops as [|o rest IH]; intros w; cbn [run fold_left].
  - reflexivity.
  - rewrite IH, perform_members. reflexivity.
Qed.

Lemma run_joined ops room :
  map view (members room (run env ops init)) = joined ops room.
Proof. rewrite run_members. reflexivity. Qed.

Lemma filter_userlist_deliveries users (cs : list Client.t) :
  filter (fun s => is_userlist s) (map (delivery (userlist_event users)) cs) =
  map (delivery (userlist_event users)) cs.
Proof.
  induction cs as [|c cs IH]; [reflexivity|].
  cbn [map]. rewrite filter_cons. cbn. rewrite IH. reflexivity.
Qed.

Lemma filter_system_deliveries text time (cs : list Client.t) :
  filter (fun s => is_userlist s) (map (delivery (system_event text time)) cs) = [].
Proof.
  induction cs as [|c cs IH]; [reflexivity|].
  cbn [map]. rewrite filter_cons. cbn. apply IH.
Qed.

Lemma deliveries_view message (cs : list Client.t) :
  map (delivery message) cs =
  map (fun p : string * WebSocket => mkSend p.2 message true) (map view cs).
Proof. rewrite map_map. reflexivity. Qed.

Lemma usernames_view (cs : list Client.t) :
  map fst (map view cs) = map Client.username cs.
Proof. rewrite map_map. reflexivity. Qed.

(** After any sequence of joins and leaves from a fresh manager, on a
    network where no send fails, the roster events sent by one more join
    or leave are exactly one per connection joined to the room after that
    operation, in join order, each carrying the usernames of those
    connections in join order. *)
Lemma roster_when_no_send_fails ops o :
  let w := run env ops init in
  let w' := snd (perform env o w) in
  filter (fun s => is_userlist s) (drop (length (wire w)) (wire w')) =
  map (fun p : string * WebSocket =>
         mkSend p.2 (userlist_event (roster (ops ++ [o]) (op_room o))) true)
      (joined (ops ++ [o]) (op_room o)).
Proof.
  intros w w'.
  assert (Hj : map view (members (op_room o) w') = joined (ops ++ [o]) (op_room o)).
  { unfold w'. rewrite perform_members. unfold w. rewrite run_joined.
    unfold joined. rewrite fold_left_app. reflexivity. }
  unfold roster. rewrite <- Hj, usernames_view, map_map.
  unfold w'. destruct o as [r u s | r u s]; cbn [perform op_room].
  - rewrite connect_reliable by assumption. cbn [snd wire].
    rewrite drop_app_length, filter_app.
    rewrite filter_userlist_deliveries, filter_system_deliveries, app_nil_r.
    rewrite members_insert. reflexivity.
  - rewrite disconnect_reliable by assumption. cbn [snd wire].
    rewrite drop_app_length, filter_app.
    rewrite filter_userlist_deliveries, filter_system_deliveries. cbn [app].
    destruct (filter _ (members r w)) as [|c cs] eqn:E.
    + rewrite members_delete. reflexivity.
    + rewrite members_insert. reflexivity.
Qed.
End Roster.

(** * Whitespace *)

Section Strip.
Lemma rstrip_blank s : rstrip s = "" <-> blank s = true.
Proof.
  destruct s as [|a s]; [cbn; tauto|].
  cbn [rstrip]. destruct (blank (String a s)).
  - tauto.
  - split; discriminate.
Qed.

Lemma lstrip_eq s :
  lstrip s =
  match s with
  | EmptyString => EmptyString
  | String a s1 =>
      if space1 a then lstrip s1
      else
        match s1 with
        | EmptyString => s
        | String b s2 =>
            if space2 a b then lstrip s2
            else
              match s2 with
              | EmptyString => s
              | String c s3 => if space3 a b c then lstrip s3 else s
              end
        end
  end.
Proof. destruct s; reflexivity. Qed.

Lemma blank_eq s :
  blank s =
  match s with
  | EmptyString => true
  | String a s1 =>
      if space1 a then blank s1
      else
        match s1 with
        | EmptyString => false
        | String b s2 =>
            if space2 a b then blank s2
            else
              match s2 with
              | EmptyString => false
              | String c s3 => space3 a b c && blank s3
              end
        end
  end.
Proof. destruct s; reflexivity. Qed.

Lemma blank_lstrip_bounded n :
  forall s, String.length s <= n -> blank (lstrip s) = blank s.
Proof.
  induction n as [|n IH]; intros s Hn.
  - destruct s; [reflexivity | cbn in Hn; lia].
  - rewrite (lstrip_eq s), (blank_eq s).
    destruct s as [|a s1]; [reflexivity|]. cbn [String.length] in Hn.
    destruct (space1 a) eqn:E1; [apply IH; lia|].
    destruct s1 as [|b s2]; [rewrite blank_eq, E1; reflexivity|].
    cbn [String.length] in Hn.
    destruct (space2 a b) eqn:E2; [apply IH; lia|].
    destruct s2 as [|c s3]; [rewrite blank_eq, E1, E2; reflexivity|].
    cbn [String.length] in Hn.
    destruct (space3 a b c) eqn:E3; [apply IH; lia|].
    rewrite blank_eq, E1, E2, E3. reflexivity.
Qed.

Lemma strip_blank s : strip s = "" <-> blank s = true.
Proof.
  unfold strip. rewrite rstrip_blank.
  rewrite (blank_lstrip_bounded (String.length s)) by lia. tauto.
Qed.
End Strip.

(** * The session handler *)

Section Handler.
Context (env : Env).

Lemma eq_str_file_not_chat x :
  eq_str x "file" = true -> eq_str x "chat" = false.
Proof.
  destruct x; cbn; try discriminate.
  intros H. apply String.eqb_eq in H. subst. reflexivity.
Qed.

Lemma turn_file room username d w :
  eq_str (dict_get "type" d) "file" = true ->
  printable (LogFile room username (dict_get "filename" d)) = true ->
  turn env room username (Decoded (JDict d)) w =
  (Return tt,
   broadcast_world env room
     (file_event username (dict_get "url" d) (dict_get "filename" d)
        (dict_get "mimetype" d) (utcnow env (tick w)))
     (after 1 [] [LogFile room username (dict_get "filename" d)] w)).
Proof.
  intros H Hp. Opaque broadcast.
  unfold turn, receive_json, get.
  unfold bind at 1. unfold ret at 1. unfold bind at 1. unfold ret at 1.
  rewrite (eq_str_file_not_chat _ H), H.
  unfold bind at 1. unfold ret at 1. unfold bind at 1. unfold print at 1.
  rewrite Hp.
  unfold bind, ret, utcnow_isoformat. cbn.
  rewrite broadcast_run. unfold after. cbn.
  rewrite app_nil_r, Nat.add_1_r. reflexivity.
  Transparent broadcast.
Qed.

Lemma turn_file_unprintable room username d w :
  eq_str (dict_get "type" d) "file" = true ->
  printable (LogFile room username (dict_get "filename" d)) = false ->
  turn env room username (Decoded (JDict d)) w = (Raise UnicodeEncodeError, w).
Proof.
  intros H Hp.
  unfold turn, receive_json, get.
  unfold bind at 1. unfold ret at 1. unfold bind at 1. unfold ret at 1.
  rewrite (eq_str_file_not_chat _ H), H.
  unfold bind at 1. unfold ret at 1. unfold bind at 1. unfold print at 1.
  rewrite Hp. reflexivity.
Qed.

Lemma turn_chat_blank room username d s w :
  eq_str (dict_get "type" d) "chat" = true ->
  dict_get "message" d = JStr s ->
  strip s = "" ->
  turn env room username (Decoded (JDict d)) w = (Return tt, w).
Proof.
  intros Ht Hm Hs.
  unfold turn, receive_json, get.
  unfold bind at 1. unfold ret at 1. unfold bind at 1. unfold ret at 1.
  rewrite Ht. unfold bind at 1. unfold ret at 1. rewrite Hm.
  unfold py_or, truthy.
  destruct (String.eqb s "") eqn:E; cbn [negb].
  - unfold bind, str_strip, ret. cbn. reflexivity.
  - unfold bind, str_strip, ret. rewrite Hs. cbn. reflexivity.
Qed.

Lemma turn_other room username d w :
  eq_str (dict_get "type" d) "chat" = false ->
  eq_str (dict_get "type" d) "file" = false ->
  turn env room username (Decoded (JDict d)) w = (Return tt, w).
Proof.
  intros Hc Hf.
  unfold turn, receive_json, get.
  unfold bind at 1. unfold ret at 1. unfold bind at 1. unfold ret at 1.
  rewrite Hc, Hf. reflexivity.
Qed.

Lemma session_continue room username ws f rest w w' :
  turn env room username f w = (Return tt, w') ->
  session env room username ws (f :: rest) w =
  session env room username ws rest w'.
Proof.
  intros H. unfold session, try_except. cbn [read_loop].
  unfold bind at 1. rewrite H. reflexivity.
Qed.

Lemma session_raise room username ws f rest e w w' :
  turn env room username f w = (Raise e, w') ->
  session env room username ws (f :: rest) w =
  (if is_disconnect e then
     disconnect env room username ws ;; ret TERMINATED
   else
     print (LogWsError room username e) ;;
     disconnect env room username ws ;; ret TERMINATED) w'.
Proof.
  intros H. unfold session, try_except. cbn [read_loop].
  unfold bind at 1. rewrite H. reflexivity.
Qed.

(** The roster event carries the usernames the registry holds for the
    room at the moment [broadcast_userlist] is called, on any network. *)
Lemma broadcast_userlist_run room w :
  broadcast_userlist env room w =
  broadcast env room
    (userlist_event (map Client.username (members room w)))
    (snd (print (LogUserlist room (map Client.username (members room w))) w)).
Proof. reflexivity. Qed.

Lemma broadcast_userlist_returns room w :
  fst (broadcast_userlist env room w) = Return tt.
Proof.
  Opaque broadcast.
  unfold broadcast_userlist, _get_usernames, _get_clients, get_rooms.
  unfold bind, ret, print. cbn [printable]. cbn. rewrite broadcast_run. reflexivity.
  Transparent broadcast.
Qed.

Lemma leave_run room ws w :
  let cs := filter (fun c => Client.ws c ≠ ws) (members room w) in
  leave room ws w =
  (Return (length (members room w), length cs),
   {| rooms := match cs with
               | [] => delete room (rooms w)
               | _ :: _ => <[room := cs]> (rooms w)
               end;
      next_id := next_id w; tick := tick w; accepted := accepted w;
      wire := wire w; stdout := stdout w |}).
Proof.
  intros cs. unfold leave, bind, get_rooms. fold (members room w). fold cs.
  destruct cs; reflexivity.
Qed.

Lemma disconnect_returns room username ws w :
  fst (disconnect env room username ws w) = Return tt.
Proof.
  Opaque broadcast broadcast_userlist.
  unfold disconnect. unfold bind at 1. rewrite leave_run.
  unfold bind, print, utcnow_isoformat. cbn [printable]. cbn.
  rewrite broadcast_run.
  match goal with
  | |- context [broadcast_userlist env room ?x] =>
      pose proof (broadcast_userlist_returns room x) as H;
      destruct (broadcast_userlist env room x) as [o x']
  end.
  cbn in H. subst o. reflexivity.
  Transparent broadcast broadcast_userlist.
Qed.

Lemma session_undecodable room username ws rest w :
  session env room username ws (Undecodable :: rest) w =
  (Return TERMINATED,
   snd (disconnect env room username ws
          (snd (print (LogWsError room username JSONDecodeError) w)))).
Proof.
  rewrite (session_raise room username ws Undecodable rest JSONDecodeError w w)
    by reflexivity.
  cbn [is_disconnect]. unfold bind at 1. unfold print at 1. cbn [printable].
  unfold bind, ret.
  pose proof (disconnect_returns room username ws
                (snd (print (LogWsError room username JSONDecodeError) w))) as H.
  unfold print in H. cbn [printable] in H. cbn [snd] in H. unfold print. cbn [printable]. cbn [snd].
  destruct (disconnect env room username ws _) as [o x]. cbn in H. subst o.
  reflexivity.
Qed.
End Handler.

(** * The registry *)

Section Registry.
Context (env : Env).

Lemma filter_keeps_all {A} (P : A -> Prop) `{forall x, Decision (P x)}
    (l : list A) :
  (forall x, x ∈ l -> P x) -> filter P l = l.
Proof.
  induction l as [|x l IH]; intros Hall; [reflexivity|].
  rewrite filter_cons_True by (apply Hall; left).
  f_equal. apply IH. intros y Hy. apply Hall. right. exact Hy.
Qed.

Lemma after_nothing w : after 0 [] [] w = w.
Proof.
  destruct w. unfold after. cbn. rewrite !app_nil_r, Nat.add_0_r. reflexivity.
Qed.

Lemma broadcast_nobody room message w :
  members room w = [] ->
  broadcast env room message w = (Return tt, w).
Proof.
  intros H. rewrite broadcast_run. unfold broadcast_world. rewrite H. cbn.
  f_equal. apply after_nothing.
Qed.

Lemma members_leave room ws w :
  members room (snd (leave room ws w)) =
  filter (fun c => Client.ws c ≠ ws) (members room w).
Proof.
  rewrite leave_run. cbn [snd].
  destruct (filter _ (members room w)) as [|c cs] eqn:E.
  - apply members_delete.
  - apply members_insert.
Qed.

Lemma members_disconnect_reliable room username ws w :
  reliable env ->
  members room (snd (disconnect env room username ws w)) =
  filter (fun c => Client.ws c ≠ ws) (members room w).
Proof.
  intros H. rewrite disconnect_reliable by assumption. cbn [snd].
  destruct (filter _ (members room w)) as [|c cs] eqn:E.
  - apply members_delete.
  - apply members_insert.
Qed.

(** C9. Removal goes by the channel handle, not by the username: when
    a room holds two connections [c1] and [c2] with the same username and
    different handles, the leave of [c1] keeps exactly the members whose
    handle is not that of [c1]; [c1] is gone, [c2] is still a member, and
    so is every other member with another handle. The whole [disconnect]
    leaves the same member list when no send fails. *)
Theorem leave_removes_by_handle room w (c1 c2 : Client.t) :
  c1 ∈ members room w ->
  c2 ∈ members room w ->
  Client.username c1 = Client.username c2 ->
  Client.ws c1 ≠ Client.ws c2 ->
  let kept := filter (fun c => Client.ws c ≠ Client.ws c1) (members room w) in
  members room (snd (leave room (Client.ws c1) w)) = kept
  /\ rooms (snd (leave room (Client.ws c1) w)) !! room = Some kept
  /\ (reliable env ->
      rooms (snd (disconnect env room (Client.username c1) (Client.ws c1) w))
        !! room = Some kept)
  /\ (c1 ∉ kept)
  /\ (c2 ∈ kept)
  /\ (forall c, c ∈ members room w -> Client.ws c ≠ Client.ws c1 -> c ∈ kept).
Proof.
  intros H1 H2 Hu Hw kept.
  assert (Hk : c2 ∈ kept).
  { apply list_elem_of_filter. split; [congruence | assumption]. }
  assert (Hne : exists c cs, kept = c :: cs).
  { destruct kept as [|c cs]; [inversion Hk | eauto]. }
  destruct Hne as (c & cs & Hcs).
  split; [apply members_leave|].
  split.
  { rewrite leave_run. cbn [snd rooms]. fold kept. rewrite Hcs.
    apply lookup_insert_eq. }
  split.
  { intros Hrel. rewrite disconnect_reliable by assumption. cbn [snd rooms].
    fold kept. rewrite Hcs. apply lookup_insert_eq. }
  split.
  { intros Hin. apply list_elem_of_filter in Hin. destruct Hin as [Hin _].
    apply Hin. reflexivity. }
  split; [assumption|].
  intros c' Hc' Hws. apply list_elem_of_filter. split; assumption.
Qed.

(** C6. Joining a room name that is absent from the registry creates
    its entry, holding the joining connection alone (after [join], and
    after the whole [connect] when no send fails); the leave of the one
    member a room has left removes the entry, and the roster queries
    [_get_clients] and [_get_usernames] then answer the empty list. *)
Theorem join_creates_last_leave_removes room username ws w (c : Client.t) :
  (rooms w !! room = None ->
   let new := Client.mk (next_id w) username ws in
   rooms (snd (join room username ws w)) !! room = Some [new]
   /\ (reliable env ->
       rooms (snd (connect env room username ws w)) !! room = Some [new]))
  /\ (rooms w !! room = Some [c] ->
      Client.ws c = ws ->
      let w' := snd (disconnect env room username ws w) in
      fst (disconnect env room username ws w) = Return tt
      /\ rooms w' !! room = None
      /\ fst (_get_clients room w') = Return []
      /\ fst (_get_usernames room w') = Return []).
Proof.
  split.
  - intros Hnone new. split.
    + unfold join, bind, get_rooms, new_Client, set_rooms, ret. cbn.
      rewrite Hnone. cbn. apply lookup_insert_eq.
    + intros Hrel. rewrite connect_reliable by assumption. cbn [snd rooms].
      unfold members. rewrite Hnone. cbn. apply lookup_insert_eq.
  - intros Hsome Hws w'.
    assert (Hf : filter (fun c => Client.ws c ≠ ws) (members room w) = []).
    { unfold members. rewrite Hsome.
      change (filter (fun c => Client.ws c ≠ ws) [c] = []).
      rewrite filter_cons_False by (intros H; apply H; assumption).
      reflexivity. }
    assert (Hr : rooms w' !! room = None).
    { unfold w', disconnect. unfold bind at 1. rewrite leave_run, Hf.
      cbn [fst snd length].
      unfold bind at 1. unfold print at 1. cbn [printable].
      unfold bind at 1. unfold utcnow_isoformat at 1.
      unfold bind at 1. rewrite broadcast_nobody by apply members_delete.
      unfold broadcast_userlist, _get_usernames, _get_clients.
      unfold bind at 1. unfold bind at 1. unfold bind at 1.
      unfold get_rooms at 1. unfold ret at 1. unfold ret at 1.
      unfold bind at 1. unfold print at 1. cbn [printable].
      rewrite broadcast_nobody by apply members_delete.
      cbn [snd rooms]. apply lookup_delete_eq. }
    split; [apply disconnect_returns|].
    split; [assumption|].
    unfold _get_usernames, _get_clients, bind, get_rooms, ret. cbn.
    rewrite Hr. split; reflexivity.
Qed.

(** C3, as amended. A leave for a connection that is not a member of
    the room, on a network where no send fails: the call returns, every
    room keeps its member list, the mapping itself is unchanged unless the
    room was held with an empty list, and the "left" notice and the roster
    are broadcast once more to every member of the room. *)
Theorem leave_absent_rebroadcasts room username ws w :
  reliable env ->
  (forall c, c ∈ members room w -> Client.ws c ≠ ws) ->
  let w' := snd (disconnect env room username ws w) in
  let notice := system_event (username +:+ " keluar dari grup")
                  (utcnow env (tick w)) in
  let users := userlist_event (map Client.username (members room w)) in
  fst (disconnect env room username ws w) = Return tt
  /\ (forall r, members r w' = members r w)
  /\ (rooms w !! room ≠ Some [] -> rooms w' = rooms w)
  /\ wire w' = wire w ++ map (delivery notice) (members room w)
                      ++ map (delivery users) (members room w).
Proof.
  intros Hrel Habs w' notice users.
  assert (Hf : filter (fun c => Client.ws c ≠ ws) (members room w) = members room w)
    by (apply filter_keeps_all; assumption).
  split; [apply disconnect_returns|].
  unfold w'. rewrite disconnect_reliable by assumption. cbn [snd]. rewrite Hf.
  split; [|split].
  - intros r. unfold members at 1. cbn [rooms].
    destruct (decide (room = r)) as [->|Hne].
    + destruct (members r w) eqn:E.
      * rewrite lookup_delete_eq. reflexivity.
      * rewrite lookup_insert_eq. reflexivity.
    + destruct (members room w).
      * rewrite lookup_delete_ne by assumption. reflexivity.
      * rewrite lookup_insert_ne by assumption. reflexivity.
  - intros Hne. cbn [rooms]. unfold members in *.
    destruct (rooms w !! room) as [[|c cs]|] eqn:E; cbn.
    + contradiction.
    + apply insert_id. assumption.
    + apply delete_id. assumption.
  - reflexivity.
Qed.
End Registry.

Section Events.
Context (env : Env).

Lemma attempts_recipients t message (cs : list Client.t) :
  map recipient (attempts env t message cs) =
  map (fun c => (Client.ws c, message)) cs.
Proof.
  revert t. induction cs as [|c cs IH]; intros t; cbn; [reflexivity|].
  rewrite IH. reflexivity.
Qed.

Lemma attempts_member t message (cs : list Client.t) c :
  c ∈ cs ->
  exists sent, mkSend (Client.ws c) message sent ∈ attempts env t message cs.
Proof.
  revert t. induction cs as [|x cs IH]; intros t Hc; [inversion Hc|].
  apply elem_of_cons in Hc. destruct Hc as [->|Hc]; cbn [attempts].
  - eexists. left.
  - destruct (IH (S t) Hc) as [sent Hs]. exists sent. right. exact Hs.
Qed.



(** C8. An inbound [chat] event whose text is empty or whitespace only
    changes nothing: the turn returns without raising and leaves the
    world as it was (no send, no line printed, no change of the rooms),
    and the session goes on with the next frame. *)
Theorem blank_chat_discarded room username ws d s rest w :
  eq_str (dict_get "type" d) "chat" = true ->
  dict_get "message" d = JStr s ->
  blank s = true ->
  turn env room username (Decoded (JDict d)) w = (Return tt, w)
  /\ session env room username ws (Decoded (JDict d) :: rest) w =
     session env room username ws rest w.
Proof.
  intros Ht Hm Hb. apply strip_blank in Hb.
  assert (H : turn env room username (Decoded (JDict d)) w = (Return tt, w))
    by (eapply turn_chat_blank; eassumption).
  split; [assumption | apply session_continue; assumption].
Qed.

(** C2, as amended. An inbound event that decodes to an object whose
    ["type"] is neither ["chat"] nor ["file"] is discarded: the world is
    unchanged and the session goes on with the next frame. An undecodable
    frame is a read error: the session prints the error, runs
    [disconnect] and is [TERMINATED], whatever frames follow. *)
Theorem unrecognized_ignored_undecodable_terminates
    room username ws d rest w :
  eq_str (dict_get "type" d) "chat" = false ->
  eq_str (dict_get "type" d) "file" = false ->
  turn env room username (Decoded (JDict d)) w = (Return tt, w)
  /\ session env room username ws (Decoded (JDict d) :: rest) w =
     session env room username ws rest w
  /\ session env room username ws (Undecodable :: rest) w =
     (Return TERMINATED,
      snd (disconnect env room username ws
             (snd (print (LogWsError room username JSONDecodeError) w)))).
Proof.
  intros Hc Hf.
  assert (H : turn env room username (Decoded (JDict d)) w = (Return tt, w))
    by (apply turn_other; assumption).
  split; [assumption|].
  split; [apply session_continue; assumption | apply session_undecodable].
Qed.
End Events.

(** * Members are distinct objects in every reachable world *)

Section Shrinking.

Lemma shrinks_refl w : shrinks w w.
Proof. split; [lia | reflexivity]. Qed.

Lemma shrinks_trans w1 w2 w3 : shrinks w1 w2 -> shrinks w2 w3 -> shrinks w1 w3.
Proof.
  intros [H1 H2] [H3 H4]. split; [lia|].
  intros room. etransitivity; [apply H4 | apply H2].
Qed.

Lemma shrinks_same_rooms w w' :
  rooms w' = rooms w -> next_id w' = next_id w -> shrinks w w'.
Proof.
  intros Hr Hn. split; [lia|]. intros room. unfold members. rewrite Hr.
  reflexivity.
Qed.

Lemma fresh_ids_shrinks w w' : fresh_ids w -> shrinks w w' -> fresh_ids w'.
Proof.
  intros [Hlt Hnd] [Hn Hsub]. split.
  - intros room c Hc. specialize (Hsub room).
    eapply Nat.lt_le_trans; [|exact Hn].
    apply (Hlt room). eapply elem_of_sublist; eassumption.
  - intros room. eapply sublist_NoDup; [apply (Hnd room)|].
    apply (fmap_sublist Client.id). apply Hsub.
Qed.

Lemma shrinking_ret {A} (a : A) : shrinking (ret a).
Proof. intros w. apply shrinks_refl. Qed.

Lemma shrinking_raise {A} e : shrinking (@raise A e).
Proof. intros w. apply shrinks_refl. Qed.

Lemma shrinking_bind {A B} (m : M A) (k : A -> M B) :
  shrinking m -> (forall a, shrinking (k a)) -> shrinking (bind m k).
Proof.
  intros Hm Hk w. unfold bind. specialize (Hm w).
  destruct (m w) as [[a|e] w1]; cbn [snd] in *.
  - eapply shrinks_trans; [eassumption | apply Hk].
  - assumption.
Qed.

Lemma shrinking_try {A} (m : M A) (h : Exn -> M A) :
  shrinking m -> (forall e, shrinking (h e)) -> shrinking (try_except m h).
Proof.
  intros Hm Hh w. unfold try_except. specialize (Hm w).
  destruct (m w) as [[a|e] w1]; cbn [snd] in *.
  - assumption.
  - eapply shrinks_trans; [eassumption | apply Hh].
Qed.

Lemma shrinking_print l : shrinking (print l).
Proof.
  intros w. unfold print.
  destruct (printable l); apply shrinks_same_rooms; reflexivity.
Qed.

End Shrinking.

Ltac shrink_bind :=
  match goal with
  | |- shrinking (bind _ _) => apply shrinking_bind; [|intros ?]
  end.

Section Invariant.
Context (env : Env).

Lemma shrinking_utcnow : shrinking (utcnow_isoformat env).
Proof. intros w. apply shrinks_same_rooms; reflexivity. Qed.

Lemma shrinking_broadcast room message : shrinking (broadcast env room message).
Proof.
  intros w. rewrite broadcast_run. cbn [snd]. split; [reflexivity|].
  intros r. unfold broadcast_world, members at 1. cbn [rooms]. unfold evict.
  destruct (failed env (tick w) message (members room w)); [reflexivity|].
  destruct (decide (room = r)) as [->|Hne].
  - rewrite lookup_insert_eq. apply sublist_filter.
  - rewrite lookup_insert_ne by assumption. reflexivity.
Qed.

Lemma shrinking_get_rooms : shrinking get_rooms.
Proof. intros w. apply shrinks_refl. Qed.

Lemma shrinking_broadcast_userlist room : shrinking (broadcast_userlist env room).
Proof.
  unfold broadcast_userlist, _get_usernames, _get_clients.
  repeat shrink_bind;
    auto using shrinking_ret, shrinking_print, shrinking_broadcast,
      shrinking_get_rooms.
Qed.

Lemma shrinking_leave room ws : shrinking (leave room ws).
Proof.
  intros w. rewrite leave_run. cbn [snd]. split; [reflexivity|].
  intros r. unfold members at 1. cbn [rooms].
  destruct (decide (room = r)) as [->|Hne].
  - destruct (filter _ (members r w)) as [|c cs] eqn:E.
    + rewrite lookup_delete_eq. apply sublist_nil_l.
    + rewrite lookup_insert_eq, <- E. apply sublist_filter.
  - destruct (filter _ (members room w)).
    + rewrite lookup_delete_ne by assumption. reflexivity.
    + rewrite lookup_insert_ne by assumption. reflexivity.
Qed.

Lemma shrinking_disconnect room username ws :
  shrinking (disconnect env room username ws).
Proof.
  unfold disconnect.
  repeat shrink_bind;
    auto using shrinking_leave, shrinking_print, shrinking_utcnow,
      shrinking_broadcast, shrinking_broadcast_userlist.
Qed.

Lemma shrinking_get data k : shrinking (get data k).
Proof. destruct data; first [apply shrinking_ret | apply shrinking_raise]. Qed.

Lemma shrinking_turn room username f : shrinking (turn env room username f).
Proof.
  unfold turn.
  apply shrinking_bind; [destruct f; first [apply shrinking_ret | apply shrinking_raise]|].
  intros data. apply shrinking_bind; [apply shrinking_get|]. intros msg_type.
  destruct (eq_str msg_type "chat").
  - apply shrinking_bind; [apply shrinking_get|]. intros message.
    apply shrinking_bind.
    { unfold str_strip. destruct (py_or message (JStr ""));
        first [apply shrinking_ret | apply shrinking_raise]. }
    intros text. destruct (String.eqb text ""); [apply shrinking_ret|].
    repeat shrink_bind;
      auto using shrinking_print, shrinking_utcnow, shrinking_broadcast.
  - destruct (eq_str msg_type "file"); [|apply shrinking_ret].
    repeat shrink_bind;
      auto using shrinking_print, shrinking_utcnow, shrinking_broadcast,
        shrinking_get.
Qed.

Lemma shrinking_session room username ws inbound :
  shrinking (session env room username ws inbound).
Proof.
  unfold session. apply shrinking_try.
  - induction inbound as [|f rest IH]; cbn [read_loop].
    + apply shrinking_ret.
    + apply shrinking_bind; [apply shrinking_turn | intros _; apply IH].
  - intros e. destruct (is_disconnect e);
      repeat shrink_bind;
      auto using shrinking_print, shrinking_disconnect, shrinking_ret.
Qed.

Lemma fresh_ids_join room username ws w :
  fresh_ids w -> fresh_ids (snd (join room username ws w)).
Proof.
  intros [Hlt Hnd].
  unfold join, bind, get_rooms, new_Client, set_rooms, ret. cbn [snd].
  fold (members room w). split.
  - intros r c. unfold members at 1. cbn [rooms next_id].
    destruct (decide (room = r)) as [->|Hne].
    + rewrite lookup_insert_eq. cbn. intros Hc.
      apply elem_of_app in Hc. destruct Hc as [Hc|Hc].
      * apply Hlt in Hc. lia.
      * apply list_elem_of_singleton in Hc. subst c. cbn. lia.
    + rewrite lookup_insert_ne by assumption. intros Hc.
      apply (Hlt r) in Hc. lia.
  - intros r. unfold members at 1. cbn [rooms].
    destruct (decide (room = r)) as [->|Hne].
    + rewrite lookup_insert_eq. cbn. rewrite map_app. cbn.
      apply NoDup_app. split; [apply Hnd|]. split; [|apply NoDup_singleton].
      intros i Hi Hi'. apply list_elem_of_singleton in Hi'. subst i.
      apply list_elem_of_fmap in Hi. destruct Hi as (c & Hid & Hc).
      apply Hlt in Hc. lia.
    + rewrite lookup_insert_ne by assumption. apply Hnd.
Qed.

Lemma fresh_ids_connect room username ws w :
  fresh_ids w -> fresh_ids (snd (connect env room username ws w)).
Proof.
  intros H. unfold connect. unfold bind at 1. unfold accept at 1.
  unfold bind at 1.
  match goal with
  | |- context [join room username ws ?x] =>
      assert (Hj : fresh_ids (snd (join room username ws x)));
      [apply fresh_ids_join; exact H|];
      destruct (join room username ws x) as [[cs|e] w1]
  end; cbn [snd] in *; [|assumption].
  eapply fresh_ids_shrinks; [exact Hj|].
  match goal with
  | |- shrinks w1 (snd (?m w1)) => cut (shrinking m); [intros Hs; apply Hs|]
  end.
  repeat shrink_bind;
    auto using shrinking_print, shrinking_utcnow, shrinking_broadcast,
      shrinking_broadcast_userlist.
Qed.

Lemma fresh_ids_init : fresh_ids init.
Proof.
  split.
  - intros room c Hc. unfold members in Hc. cbn in Hc.
    rewrite lookup_empty in Hc. inversion Hc.
  - intros room. unfold members. cbn. rewrite lookup_empty. constructor.
Qed.

Theorem reachable_fresh_ids w : reachable env w -> fresh_ids w.
Proof.
  induction 1 as [|a w Hw IH].
  - apply fresh_ids_init.
  - destruct a as [room username ws | room username ws f]; cbn [act].
    + apply fresh_ids_connect. assumption.
    + eapply fresh_ids_shrinks; [exact IH|].
      cut (shrinking (session env room username ws [f] ;; ret tt)).
      { intros Hs. apply Hs. }
      apply shrinking_bind; [apply shrinking_session | intros; apply shrinking_ret].
Qed.
End Invariant.

(** * Eviction of dead connections *)

Section Eviction.
Context (env : Env).

Lemma failed_elem t message (cs : list Client.t) c :
  c ∈ failed env t message cs -> c ∈ cs.
Proof.
  revert t. induction cs as [|x cs IH]; intros t; cbn; [trivial|].
  destruct (send_ok env t (Client.ws x) message).
  - intros H. right. eapply IH. eassumption.
  - intros H. apply elem_of_cons in H. destruct H as [->|H].
    + left.
    + right. eapply IH. eassumption.
Qed.

Lemma filter_agree {A} (P Q : A -> Prop) `{forall x, Decision (P x)}
    `{forall x, Decision (Q x)} (l : list A) :
  (forall x, x ∈ l -> (P x <-> Q x)) -> filter P l = filter Q l.
Proof.
  induction l as [|x l IH]; intros Hall; [reflexivity|].
  rewrite !filter_cons.
  assert (Hx : P x <-> Q x) by (apply Hall; left).
  rewrite IH by (intros y Hy; apply Hall; right; exact Hy).
  destruct (decide (P x)), (decide (Q x)); tauto.
Qed.

Lemma evict_failed t message (cs : list Client.t) :
  NoDup (map Client.id cs) ->
  filter (fun c => Client.id c ∉ map Client.id (failed env t message cs)) cs =
  succeeded env t message cs.
Proof.
  revert t. induction cs as [|x cs IH]; intros t Hnd; [reflexivity|].
  cbn [map] in Hnd. apply NoDup_cons in Hnd. destruct Hnd as [Hx Hnd].
  cbn [failed succeeded].
  destruct (send_ok env t (Client.ws x) message).
  - rewrite filter_cons_True.
    + f_equal. apply IH. assumption.
    + intros Hin. apply Hx. apply list_elem_of_fmap in Hin.
      destruct Hin as (d & Hid & Hd). rewrite Hid.
      apply list_elem_of_fmap_2. eapply failed_elem. eassumption.
  - rewrite filter_cons_False by (intros Hn; apply Hn; cbn; left).
    rewrite <- IH by assumption. apply filter_agree.
    intros y Hy. cbn [map]. rewrite not_elem_of_cons.
    split; [tauto|]. intros Hn. split; [|assumption].
    intros Heq. apply Hx. rewrite <- Heq. apply list_elem_of_fmap_2. assumption.
Qed.

Lemma attempts_succeeded t message (cs : list Client.t) :
  map to (filter (fun s => ok s = true) (attempts env t message cs)) =
  map Client.ws (succeeded env t message cs).
Proof.
  revert t. induction cs as [|x cs IH]; intros t; [reflexivity|].
  cbn [attempts succeeded].
  destruct (send_ok env t (Client.ws x) message).
  - rewrite filter_cons_True by reflexivity. cbn [map to].
    rewrite IH. reflexivity.
  - rewrite filter_cons_False by (cbn; discriminate). apply IH.
Qed.

(** What [broadcast] does when exactly one send fails, in a room whose
    members are distinct objects. *)
Theorem broadcast_one_failure room message w l1 c l2 :
  members room w = l1 ++ c :: l2 ->
  NoDup (map Client.id (members room w)) ->
  failed env (tick w) message (members room w) = [c] ->
  let w' := snd (broadcast env room message w) in
  fst (broadcast env room message w) = Return tt
  /\ rooms w' !! room = Some (l1 ++ l2)
  /\ S (length (l1 ++ l2)) = length (members room w)
  /\ map to (filter (fun s => ok s = true) (drop (length (wire w)) (wire w'))) =
     map Client.ws (l1 ++ l2).
Proof.
  intros Hm Hnd Hf w'. unfold w'. rewrite broadcast_run. cbn [fst snd].
  assert (Hs : succeeded env (tick w) message (members room w) = l1 ++ l2).
  { rewrite <- evict_failed by assumption. rewrite Hf, Hm.
    rewrite Hm, map_app in Hnd. cbn [map] in Hnd.
    apply NoDup_app in Hnd. destruct Hnd as (Hn1 & Hn12 & Hn2).
    apply NoDup_cons in Hn2. destruct Hn2 as [Hc Hn2].
    rewrite filter_app, filter_cons_False
      by (intros Hn; apply Hn; cbn; left).
    f_equal; apply filter_keeps_all; intros x Hx; cbn;
      rewrite list_elem_of_singleton; intros Heq.
    - apply (Hn12 (Client.id x)); [apply list_elem_of_fmap_2; assumption|].
      rewrite Heq. left.
    - apply Hc. rewrite <- Heq. apply list_elem_of_fmap_2. assumption. }
  split; [reflexivity|].
  split.
  { unfold broadcast_world. cbn [rooms]. rewrite Hf. unfold evict.
    rewrite lookup_insert_eq. f_equal.
    rewrite <- Hs, <- evict_failed by assumption. rewrite Hf. reflexivity. }
  split.
  { rewrite Hm, !length_app. cbn. lia. }
  unfold broadcast_world. cbn [wire].
  rewrite drop_app_length, attempts_succeeded, Hs. reflexivity.
Qed.
End Eviction.

(** * The invariant of the rooms when no send fails *)

Section Preservation.
Context (P : World -> Prop).

Lemma preserves_ret {A} (a : A) : preserves P (ret a).
Proof. intros w H. exact H. Qed.

Lemma preserves_raise {A} e : preserves P (@raise A e).
Proof. intros w H. exact H. Qed.

Lemma preserves_bind {A B} (m : M A) (k : A -> M B) :
  preserves P m -> (forall a, preserves P (k a)) -> preserves P (bind m k).
Proof.
  intros Hm Hk w Hw. unfold bind. specialize (Hm w Hw).
  destruct (m w) as [[a|e] w1]; cbn [snd] in *.
  - apply Hk. assumption.
  - assumption.
Qed.

Lemma preserves_try {A} (m : M A) (h : Exn -> M A) :
  preserves P m -> (forall e, preserves P (h e)) -> preserves P (try_except m h).
Proof.
  intros Hm Hh w Hw. unfold try_except. specialize (Hm w Hw).
  destruct (m w) as [[a|e] w1]; cbn [snd] in *.
  - assumption.
  - apply Hh. assumption.
Qed.
End Preservation.

Ltac preserve_bind :=
  match goal with
  | |- preserves _ (bind _ _) => apply preserves_bind; [|intros ?]
  end.

Section NoEmptyRoom.
Context (env : Env) (Hrel : reliable env).

Lemma no_empty_room_same_rooms w w' :
  rooms w' = rooms w -> no_empty_room w -> no_empty_room w'.
Proof. intros Hr H room cs. rewrite Hr. apply H. Qed.

Lemma keeps_print l : preserves no_empty_room (print l).
Proof.
  intros w. unfold print.
  destruct (printable l); apply no_empty_room_same_rooms; reflexivity.
Qed.

Lemma keeps_utcnow : preserves no_empty_room (utcnow_isoformat env).
Proof. intros w. apply no_empty_room_same_rooms. reflexivity. Qed.

Lemma keeps_get_rooms : preserves no_empty_room get_rooms.
Proof. intros w H. exact H. Qed.

Lemma keeps_accept ws : preserves no_empty_room (accept ws).
Proof. intros w. apply no_empty_room_same_rooms. reflexivity. Qed.

Lemma keeps_get data k : preserves no_empty_room (get data k).
Proof. destruct data; first [apply preserves_ret | apply preserves_raise]. Qed.

(** [join] never leaves an empty room: it adds a member. *)
Lemma keeps_join room username ws :
  preserves no_empty_room (join room username ws).
Proof.
  intros w H r cs.
  unfold join, bind, get_rooms, new_Client, set_rooms, ret. cbn [snd rooms].
  destruct (decide (room = r)) as [->|Hne].
  - rewrite lookup_insert_eq. intros [= <-].
    destruct (default [] (rooms w !! r)); discriminate.
  - rewrite lookup_insert_ne by assumption. apply H.
Qed.

(** [leave] never leaves an empty room: it pops the room it empties. *)
Lemma keeps_leave room ws : preserves no_empty_room (leave room ws).
Proof.
  intros w H r cs. rewrite leave_run. cbn [snd rooms].
  destruct (filter _ (members room w)) as [|c cs'] eqn:E;
    destruct (decide (room = r)) as [->|Hne].
  - rewrite lookup_delete_eq. discriminate.
  - rewrite lookup_delete_ne by assumption. apply H.
  - rewrite lookup_insert_eq. intros [= <-]. discriminate.
  - rewrite lookup_insert_ne by assumption. apply H.
Qed.

(** [broadcast] keeps the invariant as long as it evicts nobody. *)
Lemma keeps_broadcast room message :
  preserves no_empty_room (broadcast env room message).
Proof.
  intros w. rewrite broadcast_reliable by assumption.
  apply no_empty_room_same_rooms. reflexivity.
Qed.

Lemma keeps_broadcast_userlist room :
  preserves no_empty_room (broadcast_userlist env room).
Proof.
  unfold broadcast_userlist, _get_usernames, _get_clients.
  repeat preserve_bind;
    auto using preserves_ret, keeps_print, keeps_broadcast, keeps_get_rooms.
Qed.

Lemma keeps_connect room username ws :
  preserves no_empty_room (connect env room username ws).
Proof.
  unfold connect.
  repeat preserve_bind;
    auto using keeps_accept, keeps_join, keeps_print, keeps_utcnow,
      keeps_broadcast, keeps_broadcast_userlist.
Qed.

Lemma keeps_disconnect room username ws :
  preserves no_empty_room (disconnect env room username ws).
Proof.
  unfold disconnect.
  repeat preserve_bind;
    auto using keeps_leave, keeps_print, keeps_utcnow, keeps_broadcast,
      keeps_broadcast_userlist.
Qed.

Lemma keeps_turn room username f :
  preserves no_empty_room (turn env room username f).
Proof.
  unfold turn.
  apply preserves_bind;
    [destruct f; first [apply preserves_ret | apply preserves_raise]|].
  intros data. apply preserves_bind; [apply keeps_get|]. intros msg_type.
  destruct (eq_str msg_type "chat").
  - apply preserves_bind; [apply keeps_get|]. intros message.
    apply preserves_bind.
    { unfold str_strip. destruct (py_or message (JStr ""));
        first [apply preserves_ret | apply preserves_raise]. }
    intros text. destruct (String.eqb text ""); [apply preserves_ret|].
    repeat preserve_bind;
      auto using keeps_print, keeps_utcnow, keeps_broadcast.
  - destruct (eq_str msg_type "file"); [|apply preserves_ret].
    repeat preserve_bind;
      auto using keeps_print, keeps_utcnow, keeps_broadcast, keeps_get.
Qed.

Lemma keeps_session room username ws inbound :
  preserves no_empty_room (session env room username ws inbound).
Proof.
  unfold session. apply preserves_try.
  - induction inbound as [|f rest IH]; cbn [read_loop].
    + apply preserves_ret.
    + apply preserves_bind; [apply keeps_turn | intros _; apply IH].
  - intros e. destruct (is_disconnect e); repeat preserve_bind;
      auto using keeps_print, keeps_disconnect, preserves_ret.
Qed.

(** On a network where no send fails, no reachable world holds an empty
    room: the invariant of the specification is lost by eviction only. *)
Theorem reliable_no_empty_room w : reachable env w -> no_empty_room w.
Proof.
  induction 1 as [|a w Hw IH].
  - intros room cs H. cbn in H. rewrite lookup_empty in H. discriminate.
  - destruct a as [room username ws | room username ws f]; cbn [act].
    + apply keeps_connect. assumption.
    + cut (preserves no_empty_room (session env room username ws [f] ;; ret tt)).
      { intros Hs. apply Hs. assumption. }
      apply preserves_bind; [apply keeps_session | intros; apply preserves_ret].
Qed.
End NoEmptyRoom.

Section NotAnObject.
Context (env : Env).

(** A frame that decodes to anything but an object is an error of the
    turn: [data.get] raises. *)
Lemma turn_not_object room username data w :
  (forall d, data <> JDict d) ->
  turn env room username (Decoded data) w = (Raise AttributeError, w).
Proof.
  intros H. unfold turn, receive_json, get.
  unfold bind at 1. unfold ret at 1. unfold bind at 1.
  destruct data; try reflexivity. exfalso. eapply H. reflexivity.
Qed.

(** A [chat] event whose message is absent, [null] or another falsy value
    is discarded as an empty text is. *)
Lemma falsy_chat_discarded room username d w :
  eq_str (dict_get "type" d) "chat" = true ->
  truthy (dict_get "message" d) = false ->
  turn env room username (Decoded (JDict d)) w = (Return tt, w).
Proof.
  intros Ht Hm. unfold turn, receive_json, get.
  unfold bind at 1. unfold ret at 1. unfold bind at 1. unfold ret at 1.
  rewrite Ht. unfold bind at 1. unfold ret at 1.
  unfold py_or. rewrite Hm. reflexivity.
Qed.
End NotAnObject.

(** * The roster on any network *)

Section Registered.
Context (env : Env).

Lemma filter_userlist_attempts t users (cs : list Client.t) :
  filter (fun s => is_userlist s) (attempts env t (userlist_event users) cs) =
  attempts env t (userlist_event users) cs.
Proof.
  revert t. induction cs as [|c cs IH]; intros t; [reflexivity|].
  cbn [attempts]. rewrite filter_cons. cbn. rewrite IH. reflexivity.
Qed.

Lemma filter_system_attempts t text time (cs : list Client.t) :
  filter (fun s => is_userlist s) (attempts env t (system_event text time) cs) = [].
Proof.
  revert t. induction cs as [|c cs IH]; intros t; [reflexivity|].
  cbn [attempts]. rewrite filter_cons. cbn. apply IH.
Qed.

Lemma joined_step_sublist room o (m m' : list (string * WebSocket)) :
  m `sublist_of` m' -> joined_step room m o `sublist_of` joined_step room m' o.
Proof.
  intros H. destruct o as [r u s|r u s]; cbn [joined_step];
    destruct (decide (r = room)); try assumption.
  - apply sublist_app; [assumption | reflexivity].
  - induction H as [|x l1 l2 H IH|x l1 l2 H IH].
    + reflexivity.
    + rewrite !filter_cons. destruct (decide _); [constructor|]; assumption.
    + rewrite filter_cons. destruct (decide _); [constructor|]; assumption.
Qed.

Lemma fold_joined_sublist room ops :
  forall m m' : list (string * WebSocket),
    m `sublist_of` m' ->
    fold_left (joined_step room) ops m `sublist_of`
    fold_left (joined_step room) ops m'.
Proof.
  induction ops as [|o ops IH]; intros m m' H; cbn [fold_left]; [assumption|].
  apply IH, joined_step_sublist, H.
Qed.

Lemma bind_shrinks {A B} (m : M A) (k : A -> M B) w :
  (forall a, shrinking (k a)) -> shrinks (snd (m w)) (snd (bind m k w)).
Proof.
  intros H. unfold bind. destruct (m w) as [[a|e] w1]; cbn [snd].
  - apply H.
  - apply shrinks_refl.
Qed.


(** The members of the room when [connect] sends the roster: those it
    found and the one it appended. *)
Lemma connect_roster room username ws w :
  let cs := members room w ++ [Client.mk (next_id w) username ws] in
  filter (fun s => is_userlist s)
    (drop (length (wire w)) (wire (snd (connect env room username ws w)))) =
  attempts env (tick w) (userlist_event (map Client.username cs)) cs.
Proof.
  intros cs. Opaque broadcast.
  unfold connect, join, broadcast_userlist, _get_usernames, _get_clients.
  unfold bind, accept, get_rooms, new_Client, set_rooms, print, ret,
    utcnow_isoformat. cbn [printable]. cbn.
  fold (members room w). fold cs.
  rewrite lookup_insert_eq. cbn [default].
  rewrite broadcast_run. unfold broadcast_world at 1.
  rewrite members_insert. cbn [tick wire].
  rewrite broadcast_run. cbn [snd]. unfold broadcast_world. cbn [wire].
  rewrite <- !app_assoc, drop_app_length, filter_app.
  rewrite filter_userlist_attempts, filter_system_attempts, app_nil_r.
  rewrite members_insert. reflexivity.
  Transparent broadcast.
Qed.

Lemma members_after_leave room (cs : list Client.t) r n t a wi so :
  members room
    (mkWorld (match cs with
              | [] => delete room r
              | _ :: _ => <[room := cs]> r
              end) n t a wi so) = cs.
Proof. destruct cs; [apply members_delete | apply members_insert]. Qed.

(** The members of the room when [disconnect] sends the roster: those the
    leave kept, less those the notice before it did not reach. *)
Lemma disconnect_roster room username ws w :
  let cs := filter (fun c => Client.ws c ≠ ws) (members room w) in
  exists current t,
    filter (fun s => is_userlist s)
      (drop (length (wire w))
         (wire (snd (disconnect env room username ws w)))) =
    attempts env t (userlist_event (map Client.username current)) current
    /\ current `sublist_of` cs
    /\ (reliable env -> current = cs).
Proof.
  intros cs. Opaque broadcast.
  unfold disconnect. unfold bind at 1. rewrite leave_run. fold cs.
  unfold bind at 1. unfold print at 1. cbn [printable].
  unfold bind at 1. unfold utcnow_isoformat at 1.
  unfold bind at 1. rewrite broadcast_run.
  rewrite broadcast_userlist_run, broadcast_run. cbn [snd].
  match goal with
  | |- context [broadcast_world env room (system_event ?m ?tm) ?x] =>
      set (time := tm); set (w1 := x);
      set (w2 := broadcast_world env room (system_event m time) w1)
  end.
  assert (H1 : members room w1 = cs) by apply members_after_leave.
  exists (members room w2), (tick w2). split; [|split].
  - unfold broadcast_world at 1. unfold print. cbn [printable snd wire tick].
    change (members room (mkWorld (rooms w2) (next_id w2) (tick w2)
                            (accepted w2) (wire w2) _))
      with (members room w2).
    unfold w2 at 1. unfold broadcast_world at 1. cbn [wire].
    change (wire w1) with (wire w).
    rewrite <- app_assoc, drop_app_length, filter_app.
    rewrite filter_system_attempts, filter_userlist_attempts. reflexivity.
  - rewrite <- H1.
    pose proof (shrinking_broadcast env room
                  (system_event (username +:+ " keluar dari grup") time) w1)
      as [_ Hs].
    rewrite broadcast_run in Hs. apply Hs.
  - intros Hrel. rewrite <- H1. unfold w2, broadcast_world, members at 1.
    cbn [rooms]. rewrite failed_reliable by assumption. reflexivity.
  Transparent broadcast.
Qed.

Lemma perform_registered o room w :
  map view (members room (snd (perform env o w))) `sublist_of`
  joined_step room (map view (members room w)) o.
Proof.
  destruct o as [r u s | r u s]; cbn [perform joined_step].
  - unfold connect. unfold bind at 1. unfold accept at 1.
    match goal with
    | |- context [snd (bind (join r u s) ?k ?x)] =>
        pose proof (bind_shrinks (join r u s) k x) as [_ Hs]
    end.
    { intros clients. Opaque broadcast.
      repeat shrink_bind;
        auto using shrinking_print, shrinking_utcnow, shrinking_broadcast,
          shrinking_broadcast_userlist.
      Transparent broadcast. }
    specialize (Hs room). apply (fmap_sublist view) in Hs.
    etransitivity; [exact Hs|].
    unfold join, bind, get_rooms, new_Client, set_rooms, ret. cbn [snd].
    unfold members at 1. cbn [rooms].
    destruct (decide (r = room)) as [->|Hne].
    + rewrite lookup_insert_eq. cbn. rewrite map_app. reflexivity.
    + rewrite lookup_insert_ne by assumption. reflexivity.
  - destruct (decide (r = room)) as [->|Hne].
    + unfold disconnect.
      match goal with
      | |- context [snd (bind (leave room s) ?k w)] =>
          pose proof (bind_shrinks (leave room s) k w) as [_ Hs]
      end.
      { intros ba. Opaque broadcast.
        repeat shrink_bind;
          auto using shrinking_print, shrinking_utcnow, shrinking_broadcast,
            shrinking_broadcast_userlist.
        Transparent broadcast. }
      specialize (Hs room). apply (fmap_sublist view) in Hs.
      etransitivity; [exact Hs|].
      rewrite members_leave, view_filter. reflexivity.
    + apply (fmap_sublist view).
      apply (shrinking_disconnect env r u s w).
Qed.

Lemma run_registered ops room :
  forall w m,
    map view (members room w) `sublist_of` m ->
    map view (members room (run env ops w)) `sublist_of`
    fold_left (joined_step room) ops m.
Proof.
  induction ops as [|o ops IH]; intros w m H; cbn [run fold_left];
    [assumption|].
  apply IH. etransitivity; [apply perform_registered|].
  apply joined_step_sublist, H.
Qed.


Lemma joined_snoc ops o room :
  joined (ops ++ [o]) room = joined_step room (joined ops room) o.
Proof. unfold joined. rewrite fold_left_app. reflexivity. Qed.

Lemma registered_joined ops room :
  map view (members room (run env ops init)) `sublist_of` joined ops room.
Proof. apply run_registered. reflexivity. Qed.

Lemma roster_delivered ops o room t (current : list Client.t) :
  reliable env ->
  map view current = joined (ops ++ [o]) room ->
  attempts env t (userlist_event (map Client.username current)) current =
  map (delivery (userlist_event (roster (ops ++ [o]) room))) current.
Proof.
  intros Hrel Hc. unfold roster. rewrite <- Hc, usernames_view.
  apply attempts_reliable. assumption.
Qed.

End Registered.

Lemma play_reachable env actions :
  forall w, reachable env w -> reachable env (play env actions w).
Proof.
  induction actions as [|a rest IH]; intros w Hw; cbn [play].
  - assumption.
  - apply IH. constructor. assumption.
Qed.

Lemma env_up_reliable : reliable env_up.
Proof. intros t ws message. reflexivity. Qed.

(** C1, failing input. Alice and Bob are in room "demo" and the network
    goes down after their joins. Alice disconnects; the "left" notice to Bob
    fails and [broadcast] evicts him: the reachable world that results keeps
    "demo" in the mapping with an empty member list. *)
Theorem leave_notice_eviction_keeps_empty_room :
  reachable (env_until 8) (demo_bob (env_until 8))
  /\ rooms (demo_alice_bob (env_until 8)) !! "demo" = Some [alice; bob]
  /\ rooms (demo_bob (env_until 8)) !! "demo" = Some []
  /\ ~ no_empty_room (demo_bob (env_until 8)).
Proof.
  assert (H : rooms (demo_bob (env_until 8)) !! "demo" = Some [])
    by (vm_compute; reflexivity).
  split; [apply play_reachable; constructor|].
  split; [vm_compute; reflexivity|].
  split; [exact H|].
  intros Hinv. apply (Hinv "demo" [] H). reflexivity.
Qed.

(** C4, failing input. A broadcast to a room of one member whose send
    fails returns without raising and evicts the member, and the room keeps
    its entry in the mapping, with an empty member list. *)
Theorem sole_member_eviction_keeps_room_entry :
  reachable (env_until 3) (demo_alice (env_until 3))
  /\ members "demo" (demo_alice (env_until 3)) = [alice]
  /\ failed (env_until 3) (tick (demo_alice (env_until 3))) hi [alice] = [alice]
  /\ fst (broadcast (env_until 3) "demo" hi (demo_alice (env_until 3))) = Return tt
  /\ rooms (snd (broadcast (env_until 3) "demo" hi (demo_alice (env_until 3))))
       !! "demo" = Some [].
Proof.
  split; [apply play_reachable; constructor|].
  repeat split; vm_compute; reflexivity.
Qed.

(** C2, counterexample. With Alice and Bob in room "demo", an undecodable
    frame read by Bob's session ends the session, and Alice is sent the
    "left" notice and the roster. *)
Lemma undecodable_event_ends_session :
  session env_up "demo" "bob" 2 [] (demo_alice_bob env_up)
    = (Return ACTIVE, demo_alice_bob env_up)
  /\ fst (session env_up "demo" "bob" 2 [Undecodable] (demo_alice_bob env_up))
     = Return TERMINATED
  /\ drop (length (wire (demo_alice_bob env_up)))
       (wire (snd (session env_up "demo" "bob" 2 [Undecodable]
                     (demo_alice_bob env_up))))
     = [mkSend 1 (system_event "bob keluar dari grup" (clock 0)) true;
        mkSend 1 (userlist_event ["alice"]) true].
Proof. repeat split; vm_compute; reflexivity. Qed.

(** C3, counterexample. Alice has left room "demo" and Bob remains. A
    second [disconnect] for Alice's connection sends Bob the "left" notice
    and the roster again. *)
Lemma second_leave_broadcasts_again :
  members "demo" (demo_bob env_up) = [bob]
  /\ drop (length (wire (demo_bob env_up)))
       (wire (snd (disconnect env_up "demo" "alice" 1 (demo_bob env_up))))
     = [mkSend 2 (system_event "alice keluar dari grup" (clock 0)) true;
        mkSend 2 (userlist_event ["bob"]) true]
  /\ wire (snd (disconnect env_up "demo" "alice" 1 (demo_bob env_up)))
     <> wire (demo_bob env_up).
Proof.
  split; [vm_compute; reflexivity|].
  split; [vm_compute; reflexivity|].
  intros H. apply (f_equal (@length Send)) in H. vm_compute in H. discriminate.
Qed.

Lemma unrecognized_ignored_undecodable_terminates_witness :
  (eq_str (dict_get "type" garbled_type) "chat" = false
   /\ eq_str (dict_get "type" garbled_type) "file" = false)
  /\ (turn env_up "demo" "bob" (Decoded (JDict garbled_type))
        (demo_alice_bob env_up) = (Return tt, demo_alice_bob env_up)
      /\ session env_up "demo" "bob" 2 [Decoded (JDict garbled_type)]
           (demo_alice_bob env_up) =
         session env_up "demo" "bob" 2 [] (demo_alice_bob env_up)
      /\ session env_up "demo" "bob" 2 [Undecodable] (demo_alice_bob env_up) =
         (Return TERMINATED,
          snd (disconnect env_up "demo" "bob" 2
                 (snd (print (LogWsError "demo" "bob" JSONDecodeError)
                         (demo_alice_bob env_up)))))).
Proof.
  split; [split; reflexivity|].
  apply (unrecognized_ignored_undecodable_terminates env_up "demo" "bob" 2
           garbled_type [] (demo_alice_bob env_up)); reflexivity.
Defined.

Lemma leave_absent_rebroadcasts_witness :
  (reliable env_up
   /\ forall c, c ∈ members "demo" (demo_bob env_up) -> Client.ws c ≠ 1)
  /\ (fst (disconnect env_up "demo" "alice" 1 (demo_bob env_up)) = Return tt
      /\ (forall r, members r (snd (disconnect env_up "demo" "alice" 1
                                      (demo_bob env_up)))
                    = members r (demo_bob env_up))
      /\ (rooms (demo_bob env_up) !! "demo" ≠ Some [] ->
          rooms (snd (disconnect env_up "demo" "alice" 1 (demo_bob env_up)))
          = rooms (demo_bob env_up))
      /\ wire (snd (disconnect env_up "demo" "alice" 1 (demo_bob env_up))) =
         wire (demo_bob env_up)
         ++ map (delivery (system_event ("alice" +:+ " keluar dari grup")
                             (utcnow env_up (tick (demo_bob env_up)))))
              (members "demo" (demo_bob env_up))
         ++ map (delivery (userlist_event
                             (map Client.username
                                (members "demo" (demo_bob env_up)))))
              (members "demo" (demo_bob env_up))).
Proof.
  assert (Hm : members "demo" (demo_bob env_up) = [bob])
    by (vm_compute; reflexivity).
  assert (Habs : forall c, c ∈ members "demo" (demo_bob env_up) ->
                           Client.ws c ≠ 1).
  { intros c Hc. rewrite Hm in Hc. apply list_elem_of_singleton in Hc.
    subst c. discriminate. }
  split; [split; [exact env_up_reliable | exact Habs]|].
  exact (leave_absent_rebroadcasts env_up "demo" "alice" 1 (demo_bob env_up)
           env_up_reliable Habs).
Defined.





Lemma join_creates_last_leave_removes_witness :
  (rooms init !! "demo" = None
   /\ rooms (demo_alice env_up) !! "demo" = Some [alice]
   /\ Client.ws alice = 1
   /\ reliable env_up)
  /\ (rooms (snd (join "demo" "alice" 1 init)) !! "demo" = Some [alice]
      /\ rooms (snd (connect env_up "demo" "alice" 1 init)) !! "demo"
         = Some [alice])
  /\ (fst (disconnect env_up "demo" "alice" 1 (demo_alice env_up)) = Return tt
      /\ rooms (snd (disconnect env_up "demo" "alice" 1 (demo_alice env_up)))
           !! "demo" = None
      /\ fst (_get_clients "demo"
                (snd (disconnect env_up "demo" "alice" 1 (demo_alice env_up))))
         = Return []
      /\ fst (_get_usernames "demo"
                (snd (disconnect env_up "demo" "alice" 1 (demo_alice env_up))))
         = Return []).
Proof.
  assert (H0 : rooms init !! "demo" = None) by reflexivity.
  assert (H1 : rooms (demo_alice env_up) !! "demo" = Some [alice])
    by (vm_compute; reflexivity).
  split; [split; [exact H0 | split; [exact H1 | split;
    [reflexivity | exact env_up_reliable]]]|].
  split.
  - destruct (proj1 (join_creates_last_leave_removes env_up "demo" "alice" 1
                       init alice) H0) as [Hj Hc].
    split; [exact Hj | exact (Hc env_up_reliable)].
  - exact (proj2 (join_creates_last_leave_removes env_up "demo" "alice" 1
                    (demo_alice env_up) alice) H1 eq_refl).
Defined.


Lemma blank_chat_discarded_witness :
  (eq_str (dict_get "type" blank_chat) "chat" = true
   /\ dict_get "message" blank_chat = JStr "   "
   /\ blank "   " = true)
  /\ (turn env_up "demo" "bob" (Decoded (JDict blank_chat))
        (demo_alice_bob env_up) = (Return tt, demo_alice_bob env_up)
      /\ session env_up "demo" "bob" 2 [Decoded (JDict blank_chat)]
           (demo_alice_bob env_up) =
         session env_up "demo" "bob" 2 [] (demo_alice_bob env_up)).
Proof.
  split; [repeat split|].
  exact (blank_chat_discarded env_up "demo" "bob" 2 blank_chat "   " []
           (demo_alice_bob env_up) eq_refl eq_refl eq_refl).
Defined.

Lemma leave_removes_by_handle_witness :
  (alice ∈ members "demo" (demo_namesakes env_up)
   /\ alice' ∈ members "demo" (demo_namesakes env_up)
   /\ Client.username alice = Client.username alice'
   /\ Client.ws alice ≠ Client.ws alice')
  /\ (members "demo" (snd (leave "demo" (Client.ws alice)
                             (demo_namesakes env_up)))
      = filter (fun c => Client.ws c ≠ Client.ws alice)
          (members "demo" (demo_namesakes env_up))
      /\ rooms (snd (leave "demo" (Client.ws alice) (demo_namesakes env_up)))
           !! "demo"
         = Some (filter (fun c => Client.ws c ≠ Client.ws alice)
                   (members "demo" (demo_namesakes env_up)))
      /\ (reliable env_up ->
          rooms (snd (disconnect env_up "demo" (Client.username alice)
                        (Client.ws alice) (demo_namesakes env_up)))
            !! "demo"
          = Some (filter (fun c => Client.ws c ≠ Client.ws alice)
                    (members "demo" (demo_namesakes env_up))))
      /\ (alice ∉ filter (fun c => Client.ws c ≠ Client.ws alice)
                    (members "demo" (demo_namesakes env_up)))
      /\ (alice' ∈ filter (fun c => Client.ws c ≠ Client.ws alice)
                     (members "demo" (demo_namesakes env_up)))
      /\ (forall c, c ∈ members "demo" (demo_namesakes env_up) ->
                    Client.ws c ≠ Client.ws alice ->
                    c ∈ filter (fun c => Client.ws c ≠ Client.ws alice)
                          (members "demo" (demo_namesakes env_up)))).
Proof.
  assert (Hm : members "demo" (demo_namesakes env_up) = [alice; alice'])
    by (vm_compute; reflexivity).
  assert (H1 : alice ∈ members "demo" (demo_namesakes env_up))
    by (rewrite Hm; left).
  assert (H2 : alice' ∈ members "demo" (demo_namesakes env_up))
    by (rewrite Hm; right; left).
  assert (H3 : Client.ws alice ≠ Client.ws alice') by discriminate.
  split; [split; [exact H1 | split; [exact H2 | split;
    [reflexivity | exact H3]]]|].
  exact (leave_removes_by_handle env_up "demo" (demo_namesakes env_up)
           alice alice' H1 H2 eq_refl H3).
Defined.


(** * The scenarios of the specification *)

(** Alice then Bob join "demo": the roster Bob's join broadcasts lists them
    in join order. *)
Example roster_lists_alice_then_bob :
  filter (fun s => is_userlist s)
    (drop (length (wire (demo_alice env_up))) (wire (demo_alice_bob env_up)))
  = [mkSend 1 (userlist_event ["alice"; "bob"]) true;
     mkSend 2 (userlist_event ["alice"; "bob"]) true].
Proof. vm_compute. reflexivity. Qed.

(** Alice disconnects: Bob is sent the notice of her leave and then the
    roster without her. *)
Example notice_precedes_roster :
  drop (length (wire (demo_alice_bob env_up))) (wire (demo_bob env_up))
  = [mkSend 2 (system_event "alice keluar dari grup" (clock 0)) true;
     mkSend 2 (userlist_event ["bob"]) true].
Proof. vm_compute. reflexivity. Qed.

(** Carol, alone in "demo", says "hi" and is sent her own message. *)
Example carol_says_hi :
  let w := play env_up [Connect "demo" "carol" 7] init in
  let said := JDict [("type", JStr "chat"); ("message", JStr "hi")] in
  drop (length (wire w))
    (wire (play env_up [Receive "demo" "carol" 7 (Decoded said)] w))
  = [mkSend 7 (chat_event "carol" "hi" (clock 0)) true].
Proof. vm_compute. reflexivity. Qed.

(** Whitespace of one, two and three bytes is stripped on both sides. *)
Example strip_unicode_space :
  strip (String (ascii_of_nat 194) (String (ascii_of_nat 160)
           (" hi there " +:+
            String (ascii_of_nat 227) (String (ascii_of_nat 128)
              (String (ascii_of_nat 128) "")))))
  = "hi there".
Proof. vm_compute. reflexivity. Qed.

(** * Broadcasts, whatever the network does *)

Section Returns.
Lemma returns_ret {A} (a : A) : returns (ret a).
Proof. intros w. exists a. reflexivity. Qed.

Lemma returns_bind {A B} (m : M A) (k : A -> M B) :
  returns m -> (forall a, returns (k a)) -> returns (bind m k).
Proof.
  intros Hm Hk w. unfold bind. destruct (Hm w) as [a Ha].
  destruct (m w) as [o w1]. cbn in Ha. subst o. apply Hk.
Qed.

Lemma returns_print l : printable l = true -> returns (print l).
Proof. intros H w. exists tt. unfold print. rewrite H. reflexivity. Qed.
End Returns.

Ltac return_bind :=
  match goal with
  | |- returns (bind _ _) => apply returns_bind; [|intros ?]
  end.

Section Broadcast.
Context (env : Env).

Lemma returns_utcnow : returns (utcnow_isoformat env).
Proof. intros w. eexists. reflexivity. Qed.

Lemma returns_broadcast room message : returns (broadcast env room message).
Proof. intros w. exists tt. rewrite broadcast_run. reflexivity. Qed.

Lemma returns_broadcast_userlist room : returns (broadcast_userlist env room).
Proof. intros w. exists tt. apply broadcast_userlist_returns. Qed.

Lemma returns_disconnect room username ws :
  returns (disconnect env room username ws).
Proof. intros w. exists tt. apply disconnect_returns. Qed.

(** [broadcast] never raises, whichever sends fail, and calls [send_json]
    once for each member of the room, in member order, with the message it
    was given: no member is skipped after a failure. *)
Theorem broadcast_never_raises_sends_to_each room message w :
  fst (broadcast env room message w) = Return tt
  /\ map recipient
       (drop (length (wire w)) (wire (snd (broadcast env room message w)))) =
     map (fun c => (Client.ws c, message)) (members room w).
Proof.
  rewrite broadcast_run. cbn [fst snd]. split; [reflexivity|].
  unfold broadcast_world. cbn [wire].
  rewrite drop_app_length. apply attempts_recipients.
Qed.

Lemma failed_nil_succeeded t message (cs : list Client.t) :
  failed env t message cs = [] -> succeeded env t message cs = cs.
Proof.
  revert t. induction cs as [|c cs IH]; intros t; cbn; [reflexivity|].
  destruct (send_ok env t (Client.ws c) message); [|discriminate].
  intros H. f_equal. apply IH. assumption.
Qed.

(** In a reachable world, the members of the room after a [broadcast] are
    the members whose send returned, in their order: the connections kept
    are the connections reached. A broadcast without a failure leaves the
    mapping as it was. *)
Theorem broadcast_keeps_the_reached room message w :
  reachable env w ->
  let w' := snd (broadcast env room message w) in
  map Client.ws (members room w') =
  map to (filter (fun s => ok s = true) (drop (length (wire w)) (wire w')))
  /\ members room w' `sublist_of` members room w
  /\ length (members room w') + length (failed env (tick w) message (members room w))
     = length (members room w)
  /\ (failed env (tick w) message (members room w) = [] -> rooms w' = rooms w).
Proof.
  intros Hw w'. apply reachable_fresh_ids in Hw. destruct Hw as [_ Hnd].
  specialize (Hnd room).
  assert (Hm : members room w' = succeeded env (tick w) message (members room w)).
  { unfold w'. rewrite broadcast_run. cbn [snd].
    unfold broadcast_world, members at 1. cbn [rooms]. unfold evict.
    destruct (failed env (tick w) message (members room w)) as [|d ds] eqn:E.
    - symmetry. apply failed_nil_succeeded. assumption.
    - rewrite lookup_insert_eq.
      change (filter (fun c => Client.id c ∉ map Client.id (d :: ds))
                (members room w) =
              succeeded env (tick w) message (members room w)).
      rewrite <- E. apply evict_failed. assumption. }
  split.
  { rewrite Hm. unfold w'. rewrite broadcast_run. cbn [snd].
    unfold broadcast_world. cbn [wire]. rewrite drop_app_length.
    symmetry. apply attempts_succeeded. }
  split; [apply shrinking_broadcast|].
  split.
  { rewrite Hm. clear. generalize (tick w).
    induction (members room w) as [|c cs IH]; intros t; cbn; [reflexivity|].
    destruct (send_ok env t (Client.ws c) message); cbn; rewrite <- (IH (S t)); lia. }
  intros Hf. unfold w'. rewrite broadcast_run. cbn [snd].
  unfold broadcast_world. cbn [rooms]. rewrite Hf. reflexivity.
Qed.
End Broadcast.

(** * How sessions end *)

Section Sessions.
Context (env : Env).

Lemma printable_file room username x :
  printable (LogFile room username x) =
  negb (match x with JStr s => has_surrogate s | _ => false end).
Proof. destruct x; reflexivity. Qed.

Lemma turn_chat_unprintable room username d s w :
  eq_str (dict_get "type" d) "chat" = true ->
  py_or (dict_get "message" d) (JStr "") = JStr s ->
  String.eqb (strip s) "" = false ->
  has_surrogate (strip s) = true ->
  turn env room username (Decoded (JDict d)) w = (Raise UnicodeEncodeError, w).
Proof.
  intros Ht Hm He Hs. unfold turn, receive_json, get.
  unfold bind at 1. unfold ret at 1. unfold bind at 1. unfold ret at 1.
  rewrite Ht. unfold bind at 1. unfold ret at 1. rewrite Hm.
  unfold bind at 1. unfold str_strip, ret at 1. rewrite He.
  unfold bind at 1. unfold print at 1. cbn [printable]. rewrite Hs.
  reflexivity.
Qed.

Lemma turn_bad room username f w :
  bad f = true -> exists e, turn env room username f w = (Raise e, w).
Proof.
  intros H.
  destruct f as [| |data]; [eexists; reflexivity | eexists; reflexivity |].
  destruct data; try (eexists; reflexivity).
  cbn [bad] in H.
  destruct (eq_str (dict_get "type" d) "chat") eqn:Ht.
  - destruct (py_or (dict_get "message" d) (JStr "")) eqn:Hm;
      try (unfold turn, receive_json, get;
           unfold bind at 1; unfold ret at 1; unfold bind at 1;
           unfold ret at 1; rewrite Ht; unfold bind at 1; unfold ret at 1;
           rewrite Hm; eexists; reflexivity).
    apply andb_true_iff in H. destruct H as [He Hs].
    apply negb_true_iff in He.
    exists UnicodeEncodeError. eapply turn_chat_unprintable; eassumption.
  - destruct (eq_str (dict_get "type" d) "file") eqn:Hf; [|discriminate].
    exists UnicodeEncodeError. apply turn_file_unprintable; [assumption|].
    rewrite printable_file, H. reflexivity.
Qed.

Lemma turn_good room username f :
  bad f = false -> returns (turn env room username f).
Proof.
  intros H w.
  destruct f as [| |data]; try discriminate.
  destruct data; try discriminate.
  cbn [bad] in H.
  destruct (eq_str (dict_get "type" d) "chat") eqn:Ht.
  - destruct (py_or (dict_get "message" d) (JStr "")) eqn:Hm;
      try discriminate.
    unfold turn, receive_json, get.
    unfold bind at 1. unfold ret at 1. unfold bind at 1. unfold ret at 1.
    rewrite Ht. unfold bind at 1. unfold ret at 1. rewrite Hm.
    unfold bind at 1. unfold str_strip, ret at 1.
    destruct (String.eqb (strip s) "") eqn:He; [exists tt; reflexivity|].
    cbn [negb andb] in H.
    revert w.
    change (returns
              (print (LogChat room username (strip s)) ;;
               time <- utcnow_isoformat env ;;
               broadcast env room (chat_event username (strip s) time))).
    repeat return_bind;
      auto using returns_utcnow, returns_broadcast.
    apply returns_print. cbn [printable]. rewrite H. reflexivity.
  - destruct (eq_str (dict_get "type" d) "file") eqn:Hf.
    + exists tt. rewrite turn_file; [reflexivity | assumption|].
      rewrite printable_file, H. reflexivity.
    + exists tt. rewrite turn_other by assumption. reflexivity.
Qed.

Lemma read_loop_returns_active room username inbound w s w' :
  read_loop env room username inbound w = (Return s, w') -> s = ACTIVE.
Proof.
  revert w. induction inbound as [|f rest IH]; intros w; cbn [read_loop].
  - unfold ret. intros [= <- _]. reflexivity.
  - unfold bind at 1. destruct (turn env room username f w) as [[u|e] w1].
    + apply IH.
    + discriminate.
Qed.

Lemma handler_terminates room username ws e w :
  (if is_disconnect e then
     disconnect env room username ws ;; ret TERMINATED
   else
     print (LogWsError room username e) ;;
     disconnect env room username ws ;; ret TERMINATED) w =
  (Return TERMINATED,
   snd (disconnect env room username ws
          (if is_disconnect e then w
           else snd (print (LogWsError room username e) w)))).
Proof.
  destruct (is_disconnect e).
  - unfold bind, ret.
    pose proof (disconnect_returns env room username ws w) as H.
    destruct (disconnect env room username ws w) as [o x]. cbn in H. subst o.
    reflexivity.
  - unfold bind at 1. unfold print. cbn [printable]. cbn [snd]. unfold bind, ret.
    match goal with
    | |- context [disconnect env room username ws ?x] =>
        pose proof (disconnect_returns env room username ws x) as H;
        destruct (disconnect env room username ws x) as [o y]
    end.
    cbn in H. subst o. reflexivity.
Qed.

Lemma session_state room username ws inbound w :
  fst (session env room username ws inbound w) =
  Return (if existsb bad inbound then TERMINATED else ACTIVE).
Proof.
  revert w. induction inbound as [|f rest IH]; intros w; [reflexivity|].
  cbn [existsb]. destruct (bad f) eqn:E; cbn [orb].
  - destruct (turn_bad room username f w E) as [e He].
    rewrite (session_raise env room username ws f rest e w w He).
    rewrite handler_terminates. reflexivity.
  - destruct (turn_good room username f E w) as [u Hu].
    destruct (turn env room username f w) as [o w1] eqn:Ht. cbn in Hu.
    subst o. destruct u.
    rewrite (session_continue env room username ws f rest w w1 Ht).
    apply IH.
Qed.

End Sessions.

(** * One room at a time *)

Section Lifting.
Context (env : Env) (room : string) (P : World -> Prop).
Hypothesis P_rooms : forall w w', rooms w' = rooms w -> P w -> P w'.
Hypothesis P_join : forall username ws, preserves P (join room username ws).
Hypothesis P_leave : forall ws, preserves P (leave room ws).
Hypothesis P_broadcast :
  forall message, preserves P (broadcast env room message).

Lemma lift_print l : preserves P (print l).
Proof.
  intros w. unfold print. destruct (printable l); apply P_rooms; reflexivity.
Qed.

Lemma lift_utcnow : preserves P (utcnow_isoformat env).
Proof. intros w. apply P_rooms. reflexivity. Qed.

Lemma lift_accept ws : preserves P (accept ws).
Proof. intros w. apply P_rooms. reflexivity. Qed.

Lemma lift_get_rooms : preserves P get_rooms.
Proof. intros w H. exact H. Qed.

Lemma lift_get data k : preserves P (get data k).
Proof. destruct data; first [apply preserves_ret | apply preserves_raise]. Qed.

Lemma lift_broadcast_userlist : preserves P (broadcast_userlist env room).
Proof.
  unfold broadcast_userlist, _get_usernames, _get_clients.
  repeat preserve_bind;
    auto using preserves_ret, lift_print, lift_get_rooms.
Qed.

Lemma lift_connect username ws : preserves P (connect env room username ws).
Proof.
  unfold connect.
  repeat preserve_bind;
    auto using lift_accept, lift_print, lift_utcnow, lift_broadcast_userlist.
Qed.

Lemma lift_disconnect username ws :
  preserves P (disconnect env room username ws).
Proof.
  unfold disconnect.
  repeat preserve_bind;
    auto using lift_print, lift_utcnow, lift_broadcast_userlist.
Qed.

Lemma lift_turn username f : preserves P (turn env room username f).
Proof.
  unfold turn.
  apply preserves_bind;
    [destruct f; first [apply preserves_ret | apply preserves_raise]|].
  intros data. apply preserves_bind; [apply lift_get|]. intros msg_type.
  destruct (eq_str msg_type "chat").
  - apply preserves_bind; [apply lift_get|]. intros message.
    apply preserves_bind.
    { unfold str_strip. destruct (py_or message (JStr ""));
        first [apply preserves_ret | apply preserves_raise]. }
    intros text. destruct (String.eqb text ""); [apply preserves_ret|].
    repeat preserve_bind; auto using lift_print, lift_utcnow.
  - destruct (eq_str msg_type "file"); [|apply preserves_ret].
    repeat preserve_bind; auto using lift_print, lift_utcnow, lift_get.
Qed.

Lemma lift_session username ws inbound :
  preserves P (session env room username ws inbound).
Proof.
  unfold session. apply preserves_try.
  - induction inbound as [|f rest IH]; cbn [read_loop].
    + apply preserves_ret.
    + apply preserves_bind; [apply lift_turn | intros _; apply IH].
  - intros e. destruct (is_disconnect e); repeat preserve_bind;
      auto using lift_print, lift_disconnect, preserves_ret.
Qed.

Lemma lift_act a : action_room a = room -> preserves P (act env a).
Proof.
  destruct a as [r username ws | r username ws f]; cbn [action_room act];
    intros ->.
  - apply lift_connect.
  - apply preserves_bind; [apply lift_session | intros; apply preserves_ret].
Qed.
End Lifting.

Section Isolation.
Context (env : Env).

(** Whatever a session of one room does (a join, a frame read, a leave,
    the evictions of its broadcasts), on any network, the entry of every
    other room is left as it was. *)
Theorem other_rooms_untouched a r w :
  action_room a ≠ r ->
  rooms (snd (act env a w)) !! r = rooms w !! r.
Proof.
  intros Hne.
  apply (lift_act env (action_room a) (fun w' => rooms w' !! r = rooms w !! r));
    try reflexivity.
  - intros w1 w2 Hr H. rewrite Hr. exact H.
  - intros username ws w1 H.
    unfold join, bind, get_rooms, new_Client, set_rooms, ret. cbn [snd rooms].
    rewrite lookup_insert_ne by assumption. exact H.
  - intros ws w1 H. rewrite leave_run. cbn [snd rooms].
    destruct (filter _ (members (action_room a) w1)).
    + rewrite lookup_delete_ne by assumption. exact H.
    + rewrite lookup_insert_ne by assumption. exact H.
  - intros message w1 H. rewrite broadcast_run. cbn [snd].
    unfold broadcast_world. cbn [rooms]. unfold evict.
    destruct (failed env (tick w1) message (members (action_room a) w1)).
    + exact H.
    + rewrite lookup_insert_ne by assumption. exact H.
Qed.

(** In every reachable world the members of a room are distinct [Client]
    objects, each created by an earlier [connect]: no object is a member
    twice, so the eviction [c not in dead] removes the dead ones only. *)
Theorem members_are_distinct_objects room w :
  reachable env w ->
  NoDup (map Client.id (members room w))
  /\ (forall c, c ∈ members room w -> Client.id c < next_id w).
Proof.
  intros H. apply reachable_fresh_ids in H. destruct H as [Hlt Hnd].
  split; [apply Hnd | apply Hlt].
Qed.
End Isolation.

(** * Joins, leaves and chats *)

Section Announcements.
Context (env : Env).

Lemma blank_empty s : blank s = false -> s <> "".
Proof. intros H ->. discriminate. Qed.

Lemma turn_chat room username d s w :
  eq_str (dict_get "type" d) "chat" = true ->
  dict_get "message" d = JStr s ->
  blank s = false ->
  has_surrogate (strip s) = false ->
  turn env room username (Decoded (JDict d)) w =
  (Return tt,
   broadcast_world env room
     (chat_event username (strip s) (utcnow env (tick w)))
     (after 1 [] [LogChat room username (strip s)] w)).
Proof.
  intros Ht Hm Hb Hg. Opaque broadcast.
  unfold turn, receive_json, get.
  unfold bind at 1. unfold ret at 1. unfold bind at 1. unfold ret at 1.
  rewrite Ht. unfold bind at 1. unfold ret at 1. rewrite Hm.
  assert (Hs : String.eqb s "" = false).
  { apply String.eqb_neq. apply blank_empty. assumption. }
  assert (Hst : String.eqb (strip s) "" = false).
  { apply String.eqb_neq. intros Habs. apply strip_blank in Habs. congruence. }
  unfold py_or, truthy. rewrite Hs. cbn [negb].
  unfold bind at 1. unfold str_strip, ret at 1. rewrite Hst.
  unfold bind at 1. unfold print at 1. cbn [printable]. rewrite Hg.
  unfold bind, ret, utcnow_isoformat. cbn.
  rewrite broadcast_run. unfold after. cbn.
  rewrite app_nil_r, Nat.add_1_r. reflexivity.
  Transparent broadcast.
Qed.

(** A [chat] event whose text is not blank and can be printed (it holds
    no surrogate) is broadcast: [send_json] is called once for every
    member of the room, the sender included, with a [chat] event that
    carries the text stripped of the whitespace around it, the sender's
    username and the server's clock reading; the turn does not raise and
    the session reads on. *)
Theorem chat_event_broadcast room username ws d s rest w :
  eq_str (dict_get "type" d) "chat" = true ->
  dict_get "message" d = JStr s ->
  blank s = false ->
  has_surrogate (strip s) = false ->
  let message := chat_event username (strip s) (utcnow env (tick w)) in
  let w' := snd (turn env room username (Decoded (JDict d)) w) in
  turn env room username (Decoded (JDict d)) w = (Return tt, w')
  /\ session env room username ws (Decoded (JDict d) :: rest) w =
     session env room username ws rest w'
  /\ map recipient (drop (length (wire w)) (wire w')) =
     map (fun c => (Client.ws c, message)) (members room w)
  /\ field "type" message = JStr "chat"
  /\ field "username" message = JStr username
  /\ field "message" message = JStr (strip s)
  /\ strip s <> ""
  /\ field "time" message = JStr (utcnow env (tick w)).
Proof.
  intros Ht Hm Hb Hg message w'.
  assert (Hw : turn env room username (Decoded (JDict d)) w = (Return tt, w')).
  { unfold w'. rewrite (turn_chat room username d s w) by assumption.
    reflexivity. }
  split; [assumption|].
  split; [apply session_continue; assumption|].
  split.
  { unfold w'. rewrite (turn_chat room username d s w) by assumption.
    cbn [snd]. unfold broadcast_world. cbn [wire tick after].
    rewrite app_nil_r, drop_app_length. apply attempts_recipients. }
  repeat split. intros Habs. apply strip_blank in Habs. congruence.
Qed.

Lemma attempts_to t message (cs : list Client.t) s :
  s ∈ attempts env t message cs ->
  exists c, c ∈ cs /\ to s = Client.ws c /\ payload s = message.
Proof.
  revert t. induction cs as [|x cs IH]; intros t; cbn [attempts].
  - intros H. inversion H.
  - intros H. apply elem_of_cons in H. destruct H as [->|H].
    + exists x. split; [left | split; reflexivity].
    + destruct (IH (S t) H) as (c & Hc & Hto). exists c.
      split; [right; assumption | assumption].
Qed.

Lemma away_same room ws w0 w w' :
  rooms w' = rooms w -> wire w' = wire w -> away room ws w0 w -> away room ws w0 w'.
Proof.
  intros Hr Hw [(sends & Hs & Hto) Hm]. split.
  - exists sends. rewrite Hw. split; assumption.
  - unfold members. rewrite Hr. apply Hm.
Qed.

Lemma away_broadcast room ws w0 message :
  preserves (away room ws w0) (broadcast env room message).
Proof.
  intros w [(sends & Hs & Hto) Hm]. rewrite broadcast_run. cbn [snd]. split.
  - exists (sends ++ attempts env (tick w) message (members room w)).
    unfold broadcast_world. cbn [wire]. rewrite Hs, app_assoc.
    split; [reflexivity|].
    intros s Hin. apply elem_of_app in Hin. destruct Hin as [Hin|Hin].
    + apply Hto. assumption.
    + apply attempts_to in Hin. destruct Hin as (c & Hc & -> & _).
      apply Hm. assumption.
  - intros c Hc. apply Hm.
    eapply elem_of_sublist; [exact Hc|].
    pose proof (shrinking_broadcast env room message w) as [_ Hsub].
    rewrite broadcast_run in Hsub. apply Hsub.
Qed.

Lemma away_disconnect room username ws w :
  away room ws w (snd (disconnect env room username ws w)).
Proof.
  unfold disconnect. unfold bind at 1. rewrite leave_run. cbn [fst snd].
  match goal with
  | |- away _ _ _ (snd (?m ?x)) =>
      cut (preserves (away room ws w) m); [intros Hp; apply Hp|]
  end.
  - split.
    + exists []. cbn [wire]. rewrite app_nil_r. split; [reflexivity|].
      intros s Hs. inversion Hs.
    + intros c Hc.
      assert (Hx : c ∈ filter (fun c => Client.ws c ≠ ws) (members room w)).
      { destruct (filter _ (members room w)) as [|y ys] eqn:E.
        - rewrite members_delete in Hc. inversion Hc.
        - rewrite members_insert in Hc. exact Hc. }
      apply list_elem_of_filter in Hx. apply Hx.
  - repeat preserve_bind.
    + intros w1. apply away_same; reflexivity.
    + intros w1. apply away_same; reflexivity.
    + apply away_broadcast.
    + unfold broadcast_userlist, _get_usernames, _get_clients.
      repeat preserve_bind; try apply preserves_ret.
      * intros w1 H. exact H.
      * intros w1. apply away_same; reflexivity.
      * apply away_broadcast.
Qed.

(** [disconnect] sends nothing to the connection that leaves, on any
    network; when no send fails, each member that remains is sent the
    notice of the leave and then the roster of those who remain, all the
    notices going out before the first roster. *)
Theorem disconnect_tells_the_others room username ws w :
  let w' := snd (disconnect env room username ws w) in
  let remain := filter (fun c => Client.ws c ≠ ws) (members room w) in
  (forall s, s ∈ drop (length (wire w)) (wire w') -> to s ≠ ws)
  /\ (reliable env ->
      drop (length (wire w)) (wire w') =
      map (delivery (system_event (username +:+ " keluar dari grup")
                       (utcnow env (tick w)))) remain
      ++ map (delivery (userlist_event (map Client.username remain))) remain).
Proof.
  intros w' remain. split.
  - destruct (away_disconnect room username ws w) as [(sends & Hs & Hto) _].
    unfold w'. rewrite Hs, drop_app_length. exact Hto.
  - intros Hrel. unfold w'. rewrite disconnect_reliable by assumption.
    cbn [snd wire]. rewrite drop_app_length. reflexivity.
Qed.

(** When no send fails, [connect] sends every member of the room, the
    newcomer last, the roster that ends with the newcomer and then the
    notice of the join, all the rosters going out before the first
    notice; the newcomer is a new object with the next identity. *)
Theorem connect_announces_to_all room username ws w :
  reliable env ->
  let w' := snd (connect env room username ws w) in
  let all := members room w ++ [Client.mk (next_id w) username ws] in
  members room w' = all
  /\ drop (length (wire w)) (wire w') =
     map (delivery (userlist_event (map Client.username all))) all
     ++ map (delivery (system_event (username +:+ " bergabung ke grup")
                         (utcnow env (tick w + length all)))) all
  /\ accepted w' = accepted w ++ [ws].
Proof.
  intros Hrel w' all. unfold w'. rewrite connect_reliable by assumption.
  cbn [snd wire accepted]. rewrite members_insert, drop_app_length.
  repeat split.
Qed.

Lemma round_trip_rooms room username username' ws w :
  reliable env ->
  (forall c, c ∈ members room w -> Client.ws c ≠ ws) ->
  rooms w !! room ≠ Some [] ->
  rooms (snd (disconnect env room username' ws
                (snd (connect env room username ws w)))) = rooms w.
Proof.
  intros Hrel Habs Hne.
  rewrite disconnect_reliable by assumption. cbn [snd rooms].
  rewrite connect_reliable by assumption. cbn [snd].
  rewrite members_insert. cbn [rooms].
  rewrite filter_app, (filter_keeps_all _ (members room w)) by assumption.
  rewrite filter_cons_False by (intros H; apply H; reflexivity).
  rewrite filter_nil, app_nil_r.
  unfold members in *.
  destruct (rooms w !! room) as [[|c cs]|] eqn:E; cbn.
  - contradiction.
  - rewrite insert_insert_eq. apply insert_id. assumption.
  - apply delete_insert_id. assumption.
Qed.

(** A join followed by the leave of the same connection gives back the
    mapping of the rooms, when no send fails and the connection was not a
    member before: the room is restored to its members, or removed again
    if the join had created it. *)
Theorem connect_disconnect_round_trip room username username' ws w :
  reliable env ->
  (forall c, c ∈ members room w -> Client.ws c ≠ ws) ->
  rooms w !! room ≠ Some [] ->
  rooms (snd (disconnect env room username' ws
                (snd (connect env room username ws w)))) = rooms w.
Proof. apply round_trip_rooms. Qed.

Lemma read_loop_keeps_rooms room username inbound w :
  reliable env ->
  rooms (snd (read_loop env room username inbound w)) = rooms w.
Proof.
  intros Hrel. revert w.
  cut (forall R, preserves (fun w' => rooms w' = R)
                   (read_loop env room username inbound)).
  { intros H w. apply (H (rooms w)). reflexivity. }
  intros R. induction inbound as [|f rest IH]; cbn [read_loop].
  - apply preserves_ret.
  - apply preserves_bind; [|intros _; apply IH].
    apply (lift_turn env room).
    + intros w1 w2 Hr H. rewrite Hr. exact H.
    + intros message w1 H. rewrite broadcast_reliable by assumption.
      exact H.
Qed.

Lemma disconnect_rooms_reliable room username ws w1 w2 :
  reliable env ->
  rooms w1 = rooms w2 ->
  rooms (snd (disconnect env room username ws w1)) =
  rooms (snd (disconnect env room username ws w2)).
Proof.
  intros Hrel Hr. rewrite !disconnect_reliable by assumption.
  cbn [snd rooms]. unfold members. rewrite Hr. reflexivity.
Qed.

End Announcements.

(** * Uploads *)

Section Paths.
Import os_path.

Lemma append_cons a x y : String a x +:+ y = String a (x +:+ y).
Proof. reflexivity. Qed.

Lemma append_nil_l y : "" +:+ y = y.
Proof. reflexivity. Qed.

Lemma append_nil_r x : x +:+ "" = x.
Proof.
  induction x as [|a x IH]; [reflexivity|].
  rewrite append_cons, IH. reflexivity.
Qed.

Lemma upto_from n p : upto n p +:+ from n p = p.
Proof.
  revert p. induction n as [|n IH]; intros [|a r]; try reflexivity.
  cbn [upto from]. rewrite append_cons, IH. reflexivity.
Qed.

Lemma upto_app a b : upto (String.length a) (a +:+ b) = a.
Proof.
  induction a as [|x a IH]; [reflexivity|].
  rewrite append_cons. cbn [String.length upto]. rewrite IH. reflexivity.
Qed.

Lemma from_app a b : from (String.length a) (a +:+ b) = b.
Proof.
  induction a as [|x a IH]; [destruct b; reflexivity|].
  rewrite append_cons. cbn [String.length from]. apply IH.
Qed.

Lemma contains_app c a b :
  contains c (a +:+ b) = contains c a || contains c b.
Proof.
  induction a as [|x a IH]; [reflexivity|].
  rewrite append_cons. cbn [contains]. rewrite IH, orb_assoc. reflexivity.
Qed.

Lemma rfind_bounds c p : (-1 <= rfind c p)%Z.
Proof.
  induction p as [|a r IH]; cbn; [lia|].
  destruct (0 <=? rfind c r)%Z eqn:E; [lia|].
  destruct (Ascii.eqb a c); lia.
Qed.

Lemma rfind_absent c p : contains c p = false -> rfind c p = (-1)%Z.
Proof.
  induction p as [|a r IH]; cbn; [reflexivity|].
  intros H. apply orb_false_iff in H. destruct H as [Ha Hr].
  rewrite (IH Hr), Ha. reflexivity.
Qed.

(** Past the last [c] there is no [c]. *)
Lemma rfind_after c p :
  forall j, (rfind c p < Z.of_nat j)%Z -> contains c (from j p) = false.
Proof.
  induction p as [|a r IH]; intros j Hj.
  - destruct j; reflexivity.
  - cbn [rfind] in Hj. pose proof (rfind_bounds c r) as Hb.
    destruct j as [|j].
    + cbn [from contains].
      destruct (0 <=? rfind c r)%Z eqn:E; [lia|].
      destruct (Ascii.eqb a c); [lia|].
      cbn. apply (IH 0). apply Z.leb_gt in E. lia.
    + cbn [from]. apply IH.
      destruct (0 <=? rfind c r)%Z eqn:E; [lia|].
      apply Z.leb_gt in E. lia.
Qed.

(** At the last [c] there is a [c]. *)
Lemma rfind_at c p i :
  rfind c p = Z.of_nat i -> exists r, from i p = String c r.
Proof.
  revert i. induction p as [|a r IH]; intros i; cbn [rfind]; [lia|].
  pose proof (rfind_bounds c r) as Hb.
  destruct (0 <=? rfind c r)%Z eqn:E.
  - intros H. destruct i as [|i]; [lia|]. cbn [from]. apply IH. lia.
  - destruct (Ascii.eqb a c) eqn:Ea; [|lia].
    intros H. destruct i; [|lia]. apply Ascii.eqb_eq in Ea. subst a.
    exists r. reflexivity.
Qed.

Lemma from_from i j p : from i (from j p) = from (j + i) p.
Proof.
  revert p. induction j as [|j IH]; intros p; [reflexivity|].
  destruct p as [|a r]; cbn [from Nat.add].
  - destruct i; reflexivity.
  - apply IH.
Qed.

Lemma rfind_app c a b :
  rfind c (a +:+ b) =
  if (0 <=? rfind c b)%Z then (Z.of_nat (String.length a) + rfind c b)%Z
  else rfind c a.
Proof.
  induction a as [|x a IH].
  - rewrite append_nil_l. cbn [rfind String.length].
    destruct (0 <=? rfind c b)%Z eqn:E; [lia|].
    pose proof (rfind_bounds c b). apply Z.leb_gt in E. lia.
  - rewrite append_cons. cbn [rfind String.length].
    rewrite IH. destruct (0 <=? rfind c b)%Z eqn:E.
    + apply Z.leb_le in E.
      destruct (0 <=? Z.of_nat (String.length a) + rfind c b)%Z eqn:E2; [lia|].
      apply Z.leb_gt in E2. lia.
    + reflexivity.
Qed.

(** What [splitext] gives back: the two parts make up the path, and the
    second is an extension. *)
Lemma splitext_parts p :
  fst (splitext p) +:+ snd (splitext p) = p
  /\ extension (snd (splitext p)) = true.
Proof.
  unfold splitext.
  destruct ((rfind "." p >? rfind "/" p)%Z
            && names_a_file p (Z.to_nat (rfind "/" p + 1))
                 (Z.to_nat (rfind "." p) - Z.to_nat (rfind "/" p + 1))) eqn:E;
    cbn [fst snd].
  - split; [apply upto_from|].
    apply andb_true_iff in E. destruct E as [E _]. apply Z.gtb_lt in E.
    pose proof (rfind_bounds "/" p) as Hb.
    destruct (rfind_at "." p (Z.to_nat (rfind "." p))) as [r Hr]; [lia|].
    rewrite Hr. cbn [extension]. rewrite Ascii.eqb_refl. cbn [andb].
    assert (Hr' : r = from (S (Z.to_nat (rfind "." p))) p).
    { change r with (from 1 (String "." r)). rewrite <- Hr, from_from.
      f_equal. lia. }
    rewrite Hr', !rfind_after by lia. reflexivity.
  - split; [apply append_nil_r | reflexivity].
Qed.

Lemma hexdigits_contains c s :
  hexdigit c = false -> hexdigits s = true -> contains c s = false.
Proof.
  intros Hc. induction s as [|a r IH]; cbn; [reflexivity|].
  intros H. apply andb_true_iff in H. destruct H as [Ha Hr].
  rewrite (IH Hr), orb_false_r.
  destruct (Ascii.eqb a c) eqn:E; [|reflexivity].
  apply Ascii.eqb_eq in E. subst a. congruence.
Qed.

Lemma extension_contains e :
  extension e = true -> contains "/" e = false.
Proof.
  destruct e as [|a r]; cbn; [reflexivity|].
  intros H. apply andb_true_iff in H. destruct H as [H Hs].
  apply andb_true_iff in H. destruct H as [Ha _].
  apply Ascii.eqb_eq in Ha. subst a. cbn.
  apply negb_true_iff in Hs. exact Hs.
Qed.

(** The name [upload] stores under keeps the extension it was given. *)
Lemma splitext_unique hex e :
  hexdigits hex = true -> hex <> "" -> extension e = true ->
  splitext (hex +:+ e) = (hex, e).
Proof.
  intros Hh Hne He.
  assert (Hd : contains "." hex = false) by (apply hexdigits_contains; auto).
  assert (Hs : contains "/" hex = false) by (apply hexdigits_contains; auto).
  unfold splitext. rewrite !rfind_app.
  rewrite (rfind_absent "/" hex Hs), (rfind_absent "." hex Hd).
  rewrite (rfind_absent "/" e (extension_contains e He)). cbn [Z.leb Z.compare].
  destruct e as [|a r].
  - rewrite append_nil_r. reflexivity.
  - cbn [extension] in He. apply andb_true_iff in He. destruct He as [He _].
    apply andb_true_iff in He. destruct He as [Ha Hr].
    apply Ascii.eqb_eq in Ha. subst a. apply negb_true_iff in Hr.
    cbn [rfind]. rewrite (rfind_absent "." r Hr). cbn [Z.leb Z.compare].
    rewrite Ascii.eqb_refl. cbn [Z.leb Z.compare].
    replace (Z.of_nat (String.length hex) + 0)%Z
      with (Z.of_nat (String.length hex)) by lia.
    rewrite Nat2Z.id.
    assert (Hpos : (Z.of_nat (String.length hex) >? -1)%Z = true)
      by (apply Z.gtb_lt; lia).
    rewrite Hpos. cbn [andb Z.add Z.to_nat].
    destruct hex as [|x hex]; [congruence|].
    rewrite append_cons.
    cbn [String.length Nat.sub names_a_file String.get].
    cbn [hexdigits] in Hh. apply andb_true_iff in Hh. destruct Hh as [Hx _].
    assert (Hx' : Ascii.eqb x "." = false).
    { destruct (Ascii.eqb x ".") eqn:E; [|reflexivity].
      apply Ascii.eqb_eq in E. subst x. discriminate. }
    change (Z.to_nat (-1 + 1)) with 0.
    cbn [Nat.sub names_a_file String.get]. rewrite Hx'. cbn [negb].
    rewrite <- append_cons.
    change (S (String.length hex)) with (String.length (String x hex)).
    rewrite upto_app, from_app. reflexivity.
Qed.
End Paths.

Section Upload.
Import os_path.

Lemma uuid_hex_parts hex :
  uuid_hex hex = true ->
  hexdigits hex = true /\ hex <> "" /\ String.length hex = 32.
Proof.
  unfold uuid_hex. intros H. apply andb_true_iff in H. destruct H as [Hl Hh].
  apply Nat.eqb_eq in Hl. split; [assumption|]. split; [|assumption].
  intros ->. discriminate.
Qed.

Lemma join_uploads hex e :
  hexdigits hex = true -> hex <> "" ->
  join UPLOAD_DIR (hex +:+ e) = "uploads/" +:+ hex +:+ e.
Proof.
  intros Hh Hne. destruct hex as [|x hex]; [congruence|].
  cbn [hexdigits] in Hh. apply andb_true_iff in Hh. destruct Hh as [Hx _].
  unfold join. rewrite append_cons. cbn [startswith_sep].
  assert (Hx' : Ascii.eqb x "/" = false).
  { destruct (Ascii.eqb x "/") eqn:E; [|reflexivity].
    apply Ascii.eqb_eq in E. subst x. discriminate. }
  rewrite Hx'. reflexivity.
Qed.

Lemma append_same_length a b x y :
  String.length a = String.length b -> a +:+ x = b +:+ y -> a = b.
Proof.
  revert b. induction a as [|c a IH]; intros [|d b] Hl; try discriminate.
  - reflexivity.
  - rewrite !append_cons. intros [= -> H]. f_equal. apply IH; [|assumption].
    cbn in Hl. lia.
Qed.

Lemma upload_path hex file :
  uuid_hex hex = true ->
  join UPLOAD_DIR (hex +:+ snd (splitext (UploadFile.filename file))) =
  "uploads/" +:+ hex +:+ snd (splitext (UploadFile.filename file)).
Proof.
  intros H. apply uuid_hex_parts in H. destruct H as (Hh & Hne & _).
  apply join_uploads; assumption.
Qed.

Lemma upload_whole write hex file h :
  uuid_hex hex = true ->
  let unique := hex +:+ snd (splitext (UploadFile.filename file)) in
  write ("uploads/" +:+ unique) (UploadFile.file file) = Whole ->
  upload write hex file h =
  (Return (JDict [("filename", JStr (UploadFile.filename file));
                  ("url", JStr ("/uploads/" +:+ unique));
                  ("mimetype", json_of (UploadFile.content_type file))]),
   mkHost (<["uploads/" +:+ unique := UploadFile.file file]> (disk h))
     (console h ++ ["[UPLOAD] " +:+ UploadFile.filename file +:+ " -> "
                    +:+ unique +:+ " ("
                    +:+ str_of (UploadFile.content_type file) +:+ ")"])).
Proof.
  intros H unique Hw. unfold upload. rewrite upload_path by assumption.
  fold unique. rewrite Hw. reflexivity.
Qed.

Lemma upload_elsewhere write hex file h p :
  uuid_hex hex = true ->
  p ≠ "uploads/" +:+ hex +:+ snd (splitext (UploadFile.filename file)) ->
  disk (snd (upload write hex file h)) !! p = disk h !! p.
Proof.
  intros H Hp. unfold upload. rewrite upload_path by assumption.
  destruct (write _ _); cbn [snd disk]; try reflexivity;
    apply lookup_insert_ne; congruence.
Qed.

(** Whatever filename the client declares and whatever becomes of the
    write, [upload] touches no path but one, and that one is directly in
    the uploads directory: the name it stores under has no slash, being
    the uuid and an extension that is empty or a dot followed by neither
    a dot nor a slash. When [open] raises, the handler raises and the
    host is as it was. *)
Theorem upload_stays_in_the_directory write hex file h :
  uuid_hex hex = true ->
  let ext := snd (splitext (UploadFile.filename file)) in
  (forall p, p ≠ "uploads/" +:+ hex +:+ ext ->
             disk (snd (upload write hex file h)) !! p = disk h !! p)
  /\ contains "/" (hex +:+ ext) = false
  /\ extension ext = true
  /\ (forall e,
        write ("uploads/" +:+ hex +:+ ext) (UploadFile.file file) = Refused e ->
        upload write hex file h = (Raise e, h)).
Proof.
  intros H ext.
  split; [intros p Hp; apply upload_elsewhere; assumption|].
  pose proof H as H'. apply uuid_hex_parts in H'. destruct H' as (Hh & Hne & _).
  destruct (splitext_parts (UploadFile.filename file)) as [_ He]. fold ext in He.
  split.
  { rewrite contains_app, (hexdigits_contains "/" hex) by auto.
    apply extension_contains. assumption. }
  split; [assumption|].
  intros e Hw. unfold upload. rewrite upload_path by assumption.
  fold ext. rewrite Hw. reflexivity.
Qed.

(** When the write succeeds, the answer of [upload] names what was
    stored: its url, less the leading slash, is the path that now holds
    the bytes of the body; the filename and the content type are the
    client's (a missing content type is [null]); every other path of the
    disk is as it was. *)
Theorem upload_answers_with_the_stored_path write hex file h :
  uuid_hex hex = true ->
  let path := "uploads/" +:+ hex +:+ snd (splitext (UploadFile.filename file)) in
  write path (UploadFile.file file) = Whole ->
  let h' := snd (upload write hex file h) in
  exists answer,
    fst (upload write hex file h) = Return answer
    /\ field "url" answer = JStr ("/" +:+ path)
    /\ disk h' !! path = Some (UploadFile.file file)
    /\ (forall p, p ≠ path -> disk h' !! p = disk h !! p)
    /\ field "filename" answer = JStr (UploadFile.filename file)
    /\ field "mimetype" answer = json_of (UploadFile.content_type file).
Proof.
  intros H path Hw h'. unfold h'.
  rewrite (upload_whole write hex file h H Hw). cbn [fst snd disk].
  eexists. split; [reflexivity|].
  split; [reflexivity|].
  split; [apply lookup_insert_eq|].
  split; [|split; reflexivity].
  intros p Hp. apply lookup_insert_ne. intros E. apply Hp. symmetry. exact E.
Qed.

(** Two uploads that drew different uuids go to different paths, whatever
    their filenames: a file that was stored is still there, whole, after
    the other upload, whatever became of that one. *)
Theorem uploads_do_not_overwrite write hex1 hex2 file1 file2 h :
  uuid_hex hex1 = true ->
  uuid_hex hex2 = true ->
  hex1 <> hex2 ->
  let path1 := "uploads/" +:+ hex1 +:+ snd (splitext (UploadFile.filename file1)) in
  let path2 := "uploads/" +:+ hex2 +:+ snd (splitext (UploadFile.filename file2)) in
  write path1 (UploadFile.file file1) = Whole ->
  let h2 := snd (upload write hex2 file2 (snd (upload write hex1 file1 h))) in
  path1 <> path2
  /\ disk h2 !! path1 = Some (UploadFile.file file1)
  /\ (write path2 (UploadFile.file file2) = Whole ->
      disk h2 !! path2 = Some (UploadFile.file file2)).
Proof.
  intros H1 H2 Hne path1 path2 Hw h2.
  assert (Hp : path1 <> path2).
  { unfold path1, path2. intros Heq.
    apply (String.app_inj "uploads/") in Heq.
    apply append_same_length in Heq; [contradiction|].
    pose proof (uuid_hex_parts _ H1) as (_ & _ & ->).
    pose proof (uuid_hex_parts _ H2) as (_ & _ & ->). reflexivity. }
  split; [assumption|]. split.
  - unfold h2. rewrite upload_elsewhere by assumption.
    rewrite (upload_whole write hex1 file1 h H1 Hw). cbn [snd disk].
    apply lookup_insert_eq.
  - intros Hw2. unfold h2.
    rewrite (upload_whole write hex2 file2 _ H2 Hw2). cbn [snd disk].
    apply lookup_insert_eq.
Qed.

(** The name a file is stored under splits into the uuid and the
    extension of the filename the client declared: the extension is kept,
    and nothing else of the filename is. *)
Theorem upload_keeps_the_extension hex file :
  uuid_hex hex = true ->
  let ext := snd (splitext (UploadFile.filename file)) in
  splitext (hex +:+ ext) = (hex, ext)
  /\ fst (splitext (UploadFile.filename file)) +:+ ext = UploadFile.filename file.
Proof.
  intros H ext. apply uuid_hex_parts in H. destruct H as (Hh & Hne & _).
  destruct (splitext_parts (UploadFile.filename file)) as [Hp He].
  split; [apply splitext_unique; assumption | exact Hp].
Qed.
End Upload.

Section Relay.
Context (env : Env).
Import os_path.

(** From the upload to the room: when [upload] has answered and the
    page relays the answer as a [file] frame, the handler sends every
    member of the room a [file] event whose url is the path the bytes
    were stored under, with a slash before it, and whose filename and
    mimetype are those the uploader declared. The filename of an upload
    holds no surrogate. *)
Theorem uploaded_file_is_announced write hex file h room username w :
  uuid_hex hex = true ->
  has_surrogate (UploadFile.filename file) = false ->
  let ext := snd (splitext (UploadFile.filename file)) in
  let event := file_event username
                 (JStr ("/uploads/" +:+ hex +:+ ext))
                 (JStr (UploadFile.filename file))
                 (json_of (UploadFile.content_type file))
                 (utcnow env (tick w)) in
  forall data,
    fst (upload write hex file h) = Return (JDict data) ->
    let w' := snd (turn env room username (file_frame data) w) in
    fst (turn env room username (file_frame data) w) = Return tt
    /\ map recipient (drop (length (wire w)) (wire w')) =
       map (fun c => (Client.ws c, event)) (members room w)
    /\ disk (snd (upload write hex file h)) !! ("uploads/" +:+ hex +:+ ext)
       = Some (UploadFile.file file).
Proof.
  intros H Hg ext event data Hd w'.
  assert (Hw : write ("uploads/" +:+ hex +:+ ext) (UploadFile.file file) = Whole).
  { unfold upload in Hd. rewrite upload_path in Hd by assumption.
    fold ext in Hd. destruct (write _ _); [reflexivity | discriminate..]. }
  rewrite (upload_whole write hex file h H Hw) in Hd |- *.
  cbn [fst snd disk] in Hd |- *. injection Hd as <-.
  assert (Ht : eq_str (dict_get "type"
                 (("type", JStr "file")
                  :: js_property "url"
                       [("filename", JStr (UploadFile.filename file));
                        ("url", JStr ("/uploads/" +:+ hex +:+ ext));
                        ("mimetype", json_of (UploadFile.content_type file))]
                  ++ js_property "filename"
                       [("filename", JStr (UploadFile.filename file));
                        ("url", JStr ("/uploads/" +:+ hex +:+ ext));
                        ("mimetype", json_of (UploadFile.content_type file))]
                  ++ js_property "mimetype"
                       [("filename", JStr (UploadFile.filename file));
                        ("url", JStr ("/uploads/" +:+ hex +:+ ext));
                        ("mimetype", json_of (UploadFile.content_type file))]))
               "file" = true) by reflexivity.
  assert (Hp : printable (LogFile room username
                 (dict_get "filename"
                    (("type", JStr "file")
                     :: js_property "url"
                          [("filename", JStr (UploadFile.filename file));
                           ("url", JStr ("/uploads/" +:+ hex +:+ ext));
                           ("mimetype", json_of (UploadFile.content_type file))]
                     ++ js_property "filename"
                          [("filename", JStr (UploadFile.filename file));
                           ("url", JStr ("/uploads/" +:+ hex +:+ ext));
                           ("mimetype", json_of (UploadFile.content_type file))]
                     ++ js_property "mimetype"
                          [("filename", JStr (UploadFile.filename file));
                           ("url", JStr ("/uploads/" +:+ hex +:+ ext));
                           ("mimetype", json_of (UploadFile.content_type file))])))
               = true).
  { change (negb (has_surrogate (UploadFile.filename file)) = true).
    rewrite Hg. reflexivity. }
  unfold w', file_frame. fold ext.
  rewrite (turn_file env room username _ w Ht Hp).
  cbn [fst snd]. split; [reflexivity|].
  split.
  - unfold broadcast_world. cbn [wire tick after].
    rewrite app_nil_r, drop_app_length, attempts_recipients. reflexivity.
  - apply lookup_insert_eq.
Qed.
End Relay.

(** * The theorems at work *)

Lemma broadcast_keeps_the_reached_witness :
  reachable (env_until 8) (demo_alice_bob (env_until 8))
  /\ (map Client.ws
        (members "demo"
           (snd (broadcast (env_until 8) "demo" hi
                   (demo_alice_bob (env_until 8))))) =
      map to
        (filter (fun s => ok s = true)
           (drop (length (wire (demo_alice_bob (env_until 8))))
              (wire (snd (broadcast (env_until 8) "demo" hi
                            (demo_alice_bob (env_until 8)))))))
      /\ members "demo"
           (snd (broadcast (env_until 8) "demo" hi
                   (demo_alice_bob (env_until 8))))
         `sublist_of` members "demo" (demo_alice_bob (env_until 8))
      /\ length (members "demo"
                   (snd (broadcast (env_until 8) "demo" hi
                           (demo_alice_bob (env_until 8)))))
         + length (failed (env_until 8) (tick (demo_alice_bob (env_until 8)))
                     hi (members "demo" (demo_alice_bob (env_until 8))))
         = length (members "demo" (demo_alice_bob (env_until 8)))
      /\ (failed (env_until 8) (tick (demo_alice_bob (env_until 8))) hi
            (members "demo" (demo_alice_bob (env_until 8))) = [] ->
          rooms (snd (broadcast (env_until 8) "demo" hi
                        (demo_alice_bob (env_until 8))))
          = rooms (demo_alice_bob (env_until 8)))).
Proof.
  assert (H : reachable (env_until 8) (demo_alice_bob (env_until 8)))
    by (apply play_reachable; constructor).
  exact (conj H (broadcast_keeps_the_reached (env_until 8) "demo" hi
                   (demo_alice_bob (env_until 8)) H)).
Defined.

Lemma other_rooms_untouched_witness :
  action_room (Receive "demo" "alice" 1 Disconnected) ≠ "lobby"
  /\ rooms (snd (act env_up (Receive "demo" "alice" 1 Disconnected)
                   demo_and_lobby)) !! "lobby"
     = rooms demo_and_lobby !! "lobby".
Proof.
  assert (H : action_room (Receive "demo" "alice" 1 Disconnected) ≠ "lobby")
    by discriminate.
  exact (conj H (other_rooms_untouched env_up
                   (Receive "demo" "alice" 1 Disconnected) "lobby"
                   demo_and_lobby H)).
Defined.

Lemma members_are_distinct_objects_witness :
  reachable env_up (demo_alice_bob env_up)
  /\ (NoDup (map Client.id (members "demo" (demo_alice_bob env_up)))
      /\ forall c, c ∈ members "demo" (demo_alice_bob env_up) ->
                   Client.id c < next_id (demo_alice_bob env_up)).
Proof.
  assert (H : reachable env_up (demo_alice_bob env_up))
    by (apply play_reachable; constructor).
  exact (conj H (members_are_distinct_objects env_up "demo"
                   (demo_alice_bob env_up) H)).
Defined.

Lemma reliable_no_empty_room_witness :
  (reliable env_up /\ reachable env_up (demo_bob env_up))
  /\ no_empty_room (demo_bob env_up).
Proof.
  assert (H : reachable env_up (demo_bob env_up))
    by (apply play_reachable; constructor).
  exact (conj (conj env_up_reliable H)
           (reliable_no_empty_room env_up env_up_reliable (demo_bob env_up) H)).
Defined.

Lemma demo_alice_has_no_ws2 :
  forall c, c ∈ members "demo" (demo_alice env_up) -> Client.ws c ≠ 2.
Proof.
  assert (Hm : members "demo" (demo_alice env_up) = [alice])
    by (vm_compute; reflexivity).
  intros c Hc. rewrite Hm in Hc. apply list_elem_of_singleton in Hc.
  subst c. discriminate.
Defined.

Lemma demo_alice_not_empty : rooms (demo_alice env_up) !! "demo" ≠ Some [].
Proof.
  assert (H : rooms (demo_alice env_up) !! "demo" = Some [alice])
    by (vm_compute; reflexivity).
  rewrite H. discriminate.
Defined.

Lemma connect_disconnect_round_trip_witness :
  (reliable env_up
   /\ (forall c, c ∈ members "demo" (demo_alice env_up) -> Client.ws c ≠ 2)
   /\ rooms (demo_alice env_up) !! "demo" ≠ Some [])
  /\ rooms (snd (disconnect env_up "demo" "bob" 2
                   (snd (connect env_up "demo" "bob" 2 (demo_alice env_up)))))
     = rooms (demo_alice env_up).
Proof.
  exact (conj (conj env_up_reliable
                 (conj demo_alice_has_no_ws2 demo_alice_not_empty))
           (connect_disconnect_round_trip env_up "demo" "bob" "bob" 2
              (demo_alice env_up) env_up_reliable demo_alice_has_no_ws2
              demo_alice_not_empty)).
Defined.

Lemma connect_announces_to_all_witness :
  reliable env_up
  /\ (members "demo" (snd (connect env_up "demo" "bob" 2 (demo_alice env_up)))
      = members "demo" (demo_alice env_up)
        ++ [Client.mk (next_id (demo_alice env_up)) "bob" 2]
      /\ drop (length (wire (demo_alice env_up)))
           (wire (snd (connect env_up "demo" "bob" 2 (demo_alice env_up)))) =
         map (delivery
                (userlist_event
                   (map Client.username
                      (members "demo" (demo_alice env_up)
                       ++ [Client.mk (next_id (demo_alice env_up)) "bob" 2]))))
           (members "demo" (demo_alice env_up)
            ++ [Client.mk (next_id (demo_alice env_up)) "bob" 2])
         ++ map (delivery
                   (system_event ("bob" +:+ " bergabung ke grup")
                      (utcnow env_up
                         (tick (demo_alice env_up)
                          + length
                              (members "demo" (demo_alice env_up)
                               ++ [Client.mk (next_id (demo_alice env_up))
                                     "bob" 2])))))
              (members "demo" (demo_alice env_up)
               ++ [Client.mk (next_id (demo_alice env_up)) "bob" 2])
      /\ accepted (snd (connect env_up "demo" "bob" 2 (demo_alice env_up)))
         = accepted (demo_alice env_up) ++ [2]).
Proof.
  exact (conj env_up_reliable
           (connect_announces_to_all env_up "demo" "bob" 2 (demo_alice env_up)
              env_up_reliable)).
Defined.

Lemma disconnect_tells_the_others_witness :
  reliable env_up
  /\ (forall s,
        s ∈ drop (length (wire (demo_alice_bob env_up)))
              (wire (snd (disconnect env_up "demo" "alice" 1
                            (demo_alice_bob env_up)))) ->
        to s ≠ 1)
  /\ drop (length (wire (demo_alice_bob env_up)))
       (wire (snd (disconnect env_up "demo" "alice" 1
                     (demo_alice_bob env_up)))) =
     map (delivery (system_event ("alice" +:+ " keluar dari grup")
                      (utcnow env_up (tick (demo_alice_bob env_up)))))
       (filter (fun c => Client.ws c ≠ 1)
          (members "demo" (demo_alice_bob env_up)))
     ++ map (delivery
               (userlist_event
                  (map Client.username
                     (filter (fun c => Client.ws c ≠ 1)
                        (members "demo" (demo_alice_bob env_up))))))
          (filter (fun c => Client.ws c ≠ 1)
             (members "demo" (demo_alice_bob env_up))).
Proof.
  split; [exact env_up_reliable|].
  destruct (disconnect_tells_the_others env_up "demo" "alice" 1
              (demo_alice_bob env_up)) as [H1 H2].
  exact (conj H1 (H2 env_up_reliable)).
Defined.

Lemma chat_event_broadcast_witness :
  (eq_str (dict_get "type" hello) "chat" = true
   /\ dict_get "message" hello = JStr "  hi  "
   /\ blank "  hi  " = false
   /\ has_surrogate (strip "  hi  ") = false)
  /\ (turn env_up "demo" "bob" (Decoded (JDict hello)) (demo_alice_bob env_up)
      = (Return tt,
         snd (turn env_up "demo" "bob" (Decoded (JDict hello))
                (demo_alice_bob env_up)))
      /\ session env_up "demo" "bob" 2 [Decoded (JDict hello)]
           (demo_alice_bob env_up) =
         session env_up "demo" "bob" 2 []
           (snd (turn env_up "demo" "bob" (Decoded (JDict hello))
                   (demo_alice_bob env_up)))
      /\ map recipient
           (drop (length (wire (demo_alice_bob env_up)))
              (wire (snd (turn env_up "demo" "bob" (Decoded (JDict hello))
                            (demo_alice_bob env_up))))) =
         map (fun c =>
                (Client.ws c,
                 chat_event "bob" (strip "  hi  ")
                   (utcnow env_up (tick (demo_alice_bob env_up)))))
           (members "demo" (demo_alice_bob env_up))
      /\ field "type"
           (chat_event "bob" (strip "  hi  ")
              (utcnow env_up (tick (demo_alice_bob env_up)))) = JStr "chat"
      /\ field "username"
           (chat_event "bob" (strip "  hi  ")
              (utcnow env_up (tick (demo_alice_bob env_up)))) = JStr "bob"
      /\ field "message"
           (chat_event "bob" (strip "  hi  ")
              (utcnow env_up (tick (demo_alice_bob env_up))))
         = JStr (strip "  hi  ")
      /\ strip "  hi  " <> ""
      /\ field "time"
           (chat_event "bob" (strip "  hi  ")
              (utcnow env_up (tick (demo_alice_bob env_up))))
         = JStr (utcnow env_up (tick (demo_alice_bob env_up)))).
Proof.
  split; [split; [reflexivity | split; [reflexivity | split; reflexivity]]|].
  exact (chat_event_broadcast env_up "demo" "bob" 2 hello "  hi  " []
           (demo_alice_bob env_up) eq_refl eq_refl eq_refl eq_refl).
Defined.


Lemma falsy_chat_discarded_witness :
  (eq_str (dict_get "type" no_message) "chat" = true
   /\ truthy (dict_get "message" no_message) = false)
  /\ turn env_up "demo" "bob" (Decoded (JDict no_message))
       (demo_alice_bob env_up) = (Return tt, demo_alice_bob env_up).
Proof.
  split; [split; reflexivity|].
  exact (falsy_chat_discarded env_up "demo" "bob" no_message
           (demo_alice_bob env_up) eq_refl eq_refl).
Defined.


Lemma upload_stays_in_the_directory_witness :
  uuid_hex a_uuid = true
  /\ ((forall p,
         p ≠ "uploads/" +:+ a_uuid
             +:+ snd (os_path.splitext (UploadFile.filename script)) ->
         disk (snd (upload name_max a_uuid script empty_host)) !! p
         = disk empty_host !! p)
      /\ os_path.contains "/"
           (a_uuid +:+ snd (os_path.splitext (UploadFile.filename script)))
         = false
      /\ extension (snd (os_path.splitext (UploadFile.filename script)))
         = true
      /\ (forall e,
            name_max
              ("uploads/" +:+ a_uuid
               +:+ snd (os_path.splitext (UploadFile.filename script)))
              (UploadFile.file script) = Refused e ->
            upload name_max a_uuid script empty_host = (Raise e, empty_host))).
Proof.
  split; [reflexivity|].
  exact (upload_stays_in_the_directory name_max a_uuid script empty_host
           eq_refl).
Defined.

Lemma upload_answers_with_the_stored_path_witness :
  (uuid_hex a_uuid = true
   /\ name_max
        ("uploads/" +:+ a_uuid
         +:+ snd (os_path.splitext (UploadFile.filename picture)))
        (UploadFile.file picture) = Whole)
  /\ exists answer,
       fst (upload name_max a_uuid picture empty_host) = Return answer
       /\ field "url" answer
          = JStr ("/" +:+ "uploads/" +:+ a_uuid
                  +:+ snd (os_path.splitext (UploadFile.filename picture)))
       /\ disk (snd (upload name_max a_uuid picture empty_host))
            !! ("uploads/" +:+ a_uuid
                +:+ snd (os_path.splitext (UploadFile.filename picture)))
          = Some (UploadFile.file picture)
       /\ (forall p,
             p ≠ "uploads/" +:+ a_uuid
                 +:+ snd (os_path.splitext (UploadFile.filename picture)) ->
             disk (snd (upload name_max a_uuid picture empty_host)) !! p
             = disk empty_host !! p)
       /\ field "filename" answer = JStr (UploadFile.filename picture)
       /\ field "mimetype" answer = json_of (UploadFile.content_type picture).
Proof.
  split; [split; reflexivity|].
  exact (upload_answers_with_the_stored_path name_max a_uuid picture
           empty_host eq_refl eq_refl).
Defined.

Lemma uploads_do_not_overwrite_witness :
  (uuid_hex a_uuid = true /\ uuid_hex another_uuid = true
   /\ a_uuid <> another_uuid
   /\ name_max
        ("uploads/" +:+ a_uuid
         +:+ snd (os_path.splitext (UploadFile.filename picture)))
        (UploadFile.file picture) = Whole)
  /\ ("uploads/" +:+ a_uuid
      +:+ snd (os_path.splitext (UploadFile.filename picture))
      <> "uploads/" +:+ another_uuid
         +:+ snd (os_path.splitext (UploadFile.filename long_name))
      /\ disk (snd (upload name_max another_uuid long_name
                      (snd (upload name_max a_uuid picture empty_host))))
           !! ("uploads/" +:+ a_uuid
               +:+ snd (os_path.splitext (UploadFile.filename picture)))
         = Some (UploadFile.file picture)
      /\ (name_max
            ("uploads/" +:+ another_uuid
             +:+ snd (os_path.splitext (UploadFile.filename long_name)))
            (UploadFile.file long_name) = Whole ->
          disk (snd (upload name_max another_uuid long_name
                       (snd (upload name_max a_uuid picture empty_host))))
            !! ("uploads/" +:+ another_uuid
                +:+ snd (os_path.splitext (UploadFile.filename long_name)))
          = Some (UploadFile.file long_name))).
Proof.
  assert (H : a_uuid <> another_uuid) by discriminate.
  split; [split; [reflexivity | split; [reflexivity | split;
            [exact H | reflexivity]]]|].
  exact (uploads_do_not_overwrite name_max a_uuid another_uuid picture
           long_name empty_host eq_refl eq_refl H eq_refl).
Defined.

Lemma upload_keeps_the_extension_witness :
  uuid_hex a_uuid = true
  /\ (os_path.splitext
        (a_uuid +:+ snd (os_path.splitext (UploadFile.filename script)))
      = (a_uuid, snd (os_path.splitext (UploadFile.filename script)))
      /\ fst (os_path.splitext (UploadFile.filename script))
         +:+ snd (os_path.splitext (UploadFile.filename script))
         = UploadFile.filename script).
Proof.
  split; [reflexivity|].
  exact (upload_keeps_the_extension a_uuid script eq_refl).
Defined.

Lemma uploaded_file_is_announced_witness :
  (uuid_hex a_uuid = true
   /\ has_surrogate (UploadFile.filename picture) = false
   /\ fst (upload name_max a_uuid picture empty_host) =
      Return
        (JDict [("filename", JStr "cat.png");
             ("url", JStr "/uploads/0123456789abcdef0123456789abcdef.png");
             ("mimetype", JStr "image/png")]))
  /\ (fst (turn env_up "demo" "bob"
             (file_frame
                [("filename", JStr "cat.png");
                 ("url", JStr "/uploads/0123456789abcdef0123456789abcdef.png");
                 ("mimetype", JStr "image/png")])
             (demo_alice_bob env_up)) = Return tt
      /\ map recipient
           (drop (length (wire (demo_alice_bob env_up)))
              (wire (snd (turn env_up "demo" "bob"
                            (file_frame
                               [("filename", JStr "cat.png");
                                ("url",
                                 JStr "/uploads/0123456789abcdef0123456789abcdef.png");
                                ("mimetype", JStr "image/png")])
                            (demo_alice_bob env_up))))) =
         map (fun c =>
                (Client.ws c,
                 file_event "bob"
                   (JStr ("/uploads/" +:+ a_uuid
                          +:+ snd (os_path.splitext
                                     (UploadFile.filename picture))))
                   (JStr (UploadFile.filename picture))
                   (json_of (UploadFile.content_type picture))
                   (utcnow env_up (tick (demo_alice_bob env_up)))))
           (members "demo" (demo_alice_bob env_up))
      /\ disk (snd (upload name_max a_uuid picture empty_host))
           !! ("uploads/" +:+ a_uuid
               +:+ snd (os_path.splitext (UploadFile.filename picture)))
         = Some (UploadFile.file picture)).
Proof.
  assert (H : fst (upload name_max a_uuid picture empty_host) =
              Return
                (JDict [("filename", JStr "cat.png");
                        ("url",
                         JStr "/uploads/0123456789abcdef0123456789abcdef.png");
                        ("mimetype", JStr "image/png")]))
    by (vm_compute; reflexivity).
  split; [split; [reflexivity | split; [reflexivity | exact H]]|].
  exact (uploaded_file_is_announced env_up name_max a_uuid picture empty_host
           "demo" "bob" (demo_alice_bob env_up) eq_refl eq_refl _ H).
Defined.

(** A stored name longer than the file system takes: [open] raises, and
    [upload] answers nothing and stores nothing. *)
Example upload_of_a_long_extension_fails :
  upload name_max a_uuid long_name empty_host = (Raise OSError, empty_host).
Proof. vm_compute. reflexivity. Qed.

(** A chat whose text is a lone surrogate: the line that logs it cannot
    be printed, and the session ends without a [chat] event. *)
Example surrogate_chat_ends_the_session :
  bad (Decoded (JDict surrogate_chat)) = true
  /\ turn env_up "demo" "bob" (Decoded (JDict surrogate_chat))
       (demo_alice_bob env_up)
     = (Raise UnicodeEncodeError, demo_alice_bob env_up)
  /\ fst (session env_up "demo" "bob" 2 [Decoded (JDict surrogate_chat)]
            (demo_alice_bob env_up)) = Return TERMINATED.
Proof. repeat split; vm_compute; reflexivity. Qed.
